(** * intelligentdata: request execution pipeline

    A shallow embedding of [intelligentdata/auth.py], [client.py],
    [exceptions.py] and [models.py].  Python values are a small inductive
    type, exceptions are values of a sum, and the mutable parts (token cache,
    scripted HTTP transport, clock, sleep log) are threaded through a
    state-and-exception monad. *)

From Stdlib Require Import ZArith QArith Qreduction Qabs Bool List Ascii String Lia Lqa.
Import ListNotations.
Open Scope string_scope.
Open Scope Z_scope.
Set Warnings "-register-all".

(** ** Python values *)

Module Py.

(** Python floats, idealised: a finite float is the exact rational it
    denotes (rounding to binary64 plays no role in the control flow below). *)
Inductive pyfloat : Type :=
| Fin (q : Q)
| PInf
| NInf
| NaN.

Definition of_Z (z : Z) : pyfloat := Fin (inject_Z z).

Definition Qltb (a b : Q) : bool := negb (Qle_bool b a).

(** [a < b] on floats; every comparison with NaN is false. *)
Definition flt (a b : pyfloat) : bool :=
  match a, b with
  | NaN, _ | _, NaN => false
  | NInf, NInf => false
  | NInf, _ => true
  | _, NInf => false
  | PInf, _ => false
  | Fin _, PInf => true
  | Fin x, Fin y => Qltb x y
  end.

Definition fadd (a b : pyfloat) : pyfloat :=
  match a, b with
  | NaN, _ | _, NaN => NaN
  | PInf, NInf | NInf, PInf => NaN
  | PInf, _ | _, PInf => PInf
  | NInf, _ | _, NInf => NInf
  | Fin x, Fin y => Fin (x + y)
  end.

Definition fneg (a : pyfloat) : pyfloat :=
  match a with
  | Fin x => Fin (- x)
  | PInf => NInf
  | NInf => PInf
  | NaN => NaN
  end.

Definition fsub (a b : pyfloat) : pyfloat := fadd a (fneg b).

(** JSON-shaped Python values; a dict keeps its insertion order. *)
Inductive pyval : Type :=
| VNone
| VBool (b : bool)
| VInt (z : Z)
| VFloat (f : pyfloat)
| VStr (s : string)
| VList (l : list pyval)
| VDict (d : list (string * pyval)).

Definition pydict : Type := list (string * pyval).

Definition float_is_zero (f : pyfloat) : bool :=
  match f with
  | Fin q => Qeq_bool q 0
  | _ => false
  end.

(** [bool(v)] *)
Definition truthy (v : pyval) : bool :=
  match v with
  | VNone => false
  | VBool b => b
  | VInt z => negb (z =? 0)
  | VFloat f => negb (float_is_zero f)
  | VStr s => negb (String.eqb s "")
  | VList l => match l with [] => false | _ => true end
  | VDict d => match d with [] => false | _ => true end
  end.

(** [a or b] *)
Definition py_or (a b : pyval) : pyval := if truthy a then a else b.

(** [v == ""] *)
Definition eq_empty_str (v : pyval) : bool :=
  match v with
  | VStr s => String.eqb s ""
  | _ => false
  end.

(** [v == 0]: numbers compare by value and [False == 0]. *)
Definition eq_zero (v : pyval) : bool :=
  match v with
  | VInt z => z =? 0
  | VFloat f => float_is_zero f
  | VBool b => negb b
  | _ => false
  end.

(** [d.get(k)] *)
Fixpoint dict_get (k : string) (d : pydict) : option pyval :=
  match d with
  | [] => None
  | (k', v) :: d' => if String.eqb k k' then Some v else dict_get k d'
  end.

(** [d.get(k, dflt)] *)
Definition dict_get_default (k : string) (dflt : pyval) (d : pydict) : pyval :=
  match dict_get k d with
  | Some v => v
  | None => dflt
  end.

(** [d[k] = v]: an existing key keeps its position. *)
Fixpoint dict_set (k : string) (v : pyval) (d : pydict) : pydict :=
  match d with
  | [] => [(k, v)]
  | (k', v') :: d' =>
      if String.eqb k k' then (k', v) :: d' else (k', v') :: dict_set k v d'
  end.

Definition keys (d : pydict) : list string := map fst d.

End Py.

(** ** Strings: the parts of [str] and [float(str)] that the client uses *)

Module PyStr.
Import Py.

Definition is_lower (c : ascii) : bool :=
  let n := nat_of_ascii c in (97 <=? n)%nat && (n <=? 122)%nat.

Definition is_upper (c : ascii) : bool :=
  let n := nat_of_ascii c in (65 <=? n)%nat && (n <=? 90)%nat.

Definition upper_char (c : ascii) : ascii :=
  if is_lower c then ascii_of_nat (nat_of_ascii c - 32) else c.

Definition lower_char (c : ascii) : ascii :=
  if is_upper c then ascii_of_nat (nat_of_ascii c + 32) else c.

Fixpoint lower (s : string) : string :=
  match s with
  | EmptyString => EmptyString
  | String c s' => String (lower_char c) (lower s')
  end.

(** [s.capitalize()] on ASCII text: first character upper-cased, the rest
    lower-cased. *)
Definition capitalize (s : string) : string :=
  match s with
  | EmptyString => EmptyString
  | String c s' => String (upper_char c) (lower s')
  end.

(** [s.split("_")]: never empty, consecutive separators give empty parts. *)
Fixpoint split_underscore (s : string) : list string :=
  match s with
  | EmptyString => [EmptyString]
  | String c s' =>
      if Ascii.eqb c "_" then EmptyString :: split_underscore s'
      else match split_underscore s' with
           | p :: ps => String c p :: ps
           | [] => [String c EmptyString]
           end
  end.

(** ["".join(l)] *)
Definition join (l : list string) : string :=
  fold_right String.append EmptyString l.

(** *** [float(s)] for a string argument *)

Definition is_space (c : ascii) : bool :=
  let n := nat_of_ascii c in
  ((9 <=? n)%nat && (n <=? 13)%nat) || (n =? 32)%nat.

Definition digit_of (c : ascii) : option Z :=
  let n := nat_of_ascii c in
  if (48 <=? n)%nat && (n <=? 57)%nat then Some (Z.of_nat (n - 48)) else None.

Fixpoint lstrip (l : list ascii) : list ascii :=
  match l with
  | c :: l' => if is_space c then lstrip l' else l
  | [] => []
  end.

Definition strip (l : list ascii) : list ascii :=
  rev (lstrip (rev (lstrip l))).

(** Digits read so far: their value and how many there were. *)
Record digits : Type := mkDigits { dval : Z; dlen : nat }.

(** Continue a digit part: [digit (["_"] digit)*], the first digit already
    read. *)
Fixpoint more_digits (acc : digits) (l : list ascii) : digits * list ascii :=
  match l with
  | c :: l' =>
      match digit_of c with
      | Some d => more_digits (mkDigits (dval acc * 10 + d) (S (dlen acc))) l'
      | None =>
          if Ascii.eqb c "_" then
            match l' with
            | c' :: l'' =>
                match digit_of c' with
                | Some d =>
                    more_digits (mkDigits (dval acc * 10 + d) (S (dlen acc))) l''
                | None => (acc, l)
                end
            | [] => (acc, l)
            end
          else (acc, l)
      end
  | [] => (acc, l)
  end.

(** A digit part, if the input starts with one. *)
Definition digitpart (l : list ascii) : option (digits * list ascii) :=
  match l with
  | c :: l' =>
      match digit_of c with
      | Some d => Some (more_digits (mkDigits d 1) l')
      | None => None
      end
  | [] => None
  end.

Definition sign_of (l : list ascii) : bool * list ascii :=
  match l with
  | c :: l' =>
      if Ascii.eqb c "-" then (true, l')
      else if Ascii.eqb c "+" then (false, l')
      else (false, l)
  | [] => (false, l)
  end.

(** Mantissa: [digitpart ["." [digitpart]]] or ["." digitpart]; the result is
    the integer made of all its digits and the number of fraction digits. *)
Definition mantissa (l : list ascii) : option (Z * nat * list ascii) :=
  match digitpart l with
  | Some (ip, r) =>
      match r with
      | c :: r' =>
          if Ascii.eqb c "." then
            match digitpart r' with
            | Some (fp, r'') =>
                Some (dval ip * 10 ^ Z.of_nat (dlen fp) + dval fp, dlen fp, r'')
            | None => Some (dval ip, O, r')
            end
          else Some (dval ip, O, r)
      | [] => Some (dval ip, O, r)
      end
  | None =>
      match l with
      | c :: r' =>
          if Ascii.eqb c "." then
            match digitpart r' with
            | Some (fp, r'') => Some (dval fp, dlen fp, r'')
            | None => None
            end
          else None
      | [] => None
      end
  end.

(** Optional exponent [("e"|"E") ["+"|"-"] digitpart]; [None] when an
    exponent marker is not followed by a well-formed exponent. *)
Definition exponent (l : list ascii) : option (Z * list ascii) :=
  match l with
  | c :: r =>
      if Ascii.eqb c "e" || Ascii.eqb c "E" then
        let '(neg, r') := sign_of r in
        match digitpart r' with
        | Some (e, r'') => Some (if neg then - dval e else dval e, r'')
        | None => None
        end
      else Some (0, l)
  | [] => Some (0, l)
  end.

Definition scale (m e : Z) : Q :=
  if 0 <=? e then inject_Z (m * 10 ^ e)
  else Qred (Qmake m (Z.to_pos (10 ^ (- e)))).

Definition special (l : list ascii) : option pyfloat :=
  let w := lower (string_of_list_ascii l) in
  if String.eqb w "inf" || String.eqb w "infinity" then Some PInf
  else if String.eqb w "nan" then Some NaN
  else None.

(** [float(s)]: [None] stands for the [ValueError] that Python raises. *)
Definition float_of_str (s : string) : option pyfloat :=
  let '(neg, body) := sign_of (strip (list_ascii_of_string s)) in
  match special body with
  | Some f => Some (if neg then fneg f else f)
  | None =>
      match mantissa body with
      | Some (m, fl, r) =>
          match exponent r with
          | Some (e, []) =>
              Some (Fin (scale (if neg then - m else m) (e - Z.of_nat fl)))
          | _ => None
          end
      | None => None
      end
  end.

End PyStr.

(** ** exceptions.py, and the library exceptions that can cross the client *)

Module Exceptions.
Import Py.

Inductive api_class : Type :=
| ClsApiError
| ClsAuthenticationError
| ClsRateLimitError.

(** An instance of [ApiError] or of one of its subclasses; [retry_after] is
    the attribute that only [RateLimitError] sets. *)
Record api_error : Type := mkApiError {
  cls : api_class;
  status_code : Z;
  message : pyval;
  raw : pyval;
  retry_after : option pyfloat
}.

(** [ApiError.__init__], shared by the subclasses through [super()]. *)
Definition init_api_error (c : api_class) (status_code : Z) (message raw : pyval)
    (retry_after : option pyfloat) : api_error :=
  mkApiError c status_code message (py_or raw (VDict [])) retry_after.

Definition ApiError (status_code : Z) (message raw : pyval) : api_error :=
  init_api_error ClsApiError status_code message raw None.

Definition AuthenticationError (message raw : pyval) : api_error :=
  init_api_error ClsAuthenticationError 401 message raw None.

Definition RateLimitError (retry_after : pyfloat) (raw : pyval) : api_error :=
  init_api_error ClsRateLimitError 429 (VStr "Rate limit exceeded") raw
    (Some retry_after).

Inductive exn : Type :=
| ExApi (e : api_error)
| ExTransport (what : string)      (* httpx.TransportError and its subclasses *)
| ExHTTPStatus (status : Z)        (* httpx.HTTPStatusError *)
| ExHttpxOther (what : string)     (* any other exception of the HTTP client *)
| ExJSONDecode                     (* json.JSONDecodeError *)
| ExValueError
| ExOverflowError
| ExTypeError
| ExAttributeError
| ExKeyError (k : string).

(** [isinstance(e, httpx.TransportError)] *)
Definition is_transport_error (e : exn) : bool :=
  match e with
  | ExTransport _ => true
  | _ => false
  end.

(** [isinstance(e, AuthenticationError)] *)
Definition is_authentication_error (e : exn) : bool :=
  match e with
  | ExApi a => match cls a with ClsAuthenticationError => true | _ => false end
  | _ => false
  end.

(** [isinstance(e, RateLimitError)] *)
Definition is_rate_limit_error (e : exn) : bool :=
  match e with
  | ExApi a => match cls a with ClsRateLimitError => true | _ => false end
  | _ => false
  end.

(** [isinstance(e, ApiError)] *)
Definition is_api_error (e : exn) : bool :=
  match e with
  | ExApi _ => true
  | _ => false
  end.

(** [e.status_code], for the exceptions that have the attribute. *)
Definition exn_status_code (e : exn) : option Z :=
  match e with
  | ExApi a => Some (status_code a)
  | _ => None
  end.

End Exceptions.

(** ** models.py: the request objects *)

Module Models.
Import Py.

Record AddressRequest : Type := mkAddressRequest {
  address_line1 : string;
  city : string;
  address_country : string;
  address_line2 : string;
  address_state : string;
  postal_code : string
}.

Record TaxIdRequest : Type := mkTaxIdRequest {
  tax_id : string;
  tax_country : string;
  tax_id_type : string
}.

Record BankAccountRequest : Type := mkBankAccountRequest {
  account_number : string;
  bank_country : string;
  routing_number : string;
  iban : string;
  bank_code : string
}.

Record BusinessLookupRequest : Type := mkBusinessLookupRequest {
  business_company_name : string;
  business_country : string;
  business_registration_number : string;
  business_state : string
}.

Record SanctionsRequest : Type := mkSanctionsRequest {
  entity_name : string;
  entity_type : string;
  sanctions_country : string
}.

Record DirectorsRequest : Type := mkDirectorsRequest {
  directors_company_name : string;
  directors_country : string;
  directors_registration_number : string
}.

(** The six typed request objects. *)
Inductive Request : Type :=
| ReqAddress (r : AddressRequest)
| ReqTaxId (r : TaxIdRequest)
| ReqBankAccount (r : BankAccountRequest)
| ReqBusinessLookup (r : BusinessLookupRequest)
| ReqSanctions (r : SanctionsRequest)
| ReqDirectors (r : DirectorsRequest).

(** [dataclasses.asdict(obj)]: the fields in declaration order, under their
    Python names. *)
Definition asdict (obj : Request) : pydict :=
  match obj with
  | ReqAddress r =>
      [("address_line1", VStr (address_line1 r));
       ("city", VStr (city r));
       ("country", VStr (address_country r));
       ("address_line2", VStr (address_line2 r));
       ("state", VStr (address_state r));
       ("postal_code", VStr (postal_code r))]
  | ReqTaxId r =>
      [("tax_id", VStr (tax_id r));
       ("country", VStr (tax_country r));
       ("tax_id_type", VStr (tax_id_type r))]
  | ReqBankAccount r =>
      [("account_number", VStr (account_number r));
       ("country", VStr (bank_country r));
       ("routing_number", VStr (routing_number r));
       ("iban", VStr (iban r));
       ("bank_code", VStr (bank_code r))]
  | ReqBusinessLookup r =>
      [("company_name", VStr (business_company_name r));
       ("country", VStr (business_country r));
       ("registration_number", VStr (business_registration_number r));
       ("state", VStr (business_state r))]
  | ReqSanctions r =>
      [("entity_name", VStr (entity_name r));
       ("entity_type", VStr (entity_type r));
       ("country", VStr (sanctions_country r))]
  | ReqDirectors r =>
      [("company_name", VStr (directors_company_name r));
       ("country", VStr (directors_country r));
       ("registration_number", VStr (directors_registration_number r))]
  end.

(** The response objects.  Nothing checks the types of the values taken
    from the body, so every field holds whatever value arrived. *)

Record AddressResponse : Type := mkAddressResponse {
  address_is_valid : pyval;
  confidence_score : pyval;
  standardized_address : pyval;
  address_raw : pyval
}.

Record TaxIdResponse : Type := mkTaxIdResponse {
  tax_is_valid : pyval;
  tax_response_id_type : pyval;
  tax_response_country : pyval;
  registered_name : pyval;
  tax_raw : pyval
}.

Record BankAccountResponse : Type := mkBankAccountResponse {
  bank_is_valid : pyval;
  bank_name : pyval;
  account_type : pyval;
  bank_raw : pyval
}.

Record BusinessLookupResponse : Type := mkBusinessLookupResponse {
  found : pyval;
  business_response_company_name : pyval;
  business_response_registration_number : pyval;
  business_status : pyval;
  business_address : pyval;
  business_raw : pyval
}.

Record SanctionsResponse : Type := mkSanctionsResponse {
  has_matches : pyval;
  matches : pyval;
  screened_lists : pyval;
  sanctions_raw : pyval
}.

Record DirectorsResponse : Type := mkDirectorsResponse {
  has_disqualified : pyval;
  directors : pyval;
  directors_raw : pyval
}.

End Models.

(** ** The HTTP client library and the clock, as the SDK observes them *)

Module Httpx.
Import Py PyStr Exceptions.

(** What the SDK reads off an [httpx.Response].  [json] is the outcome of
    [resp.json()]: [None] when the body does not decode. *)
Record Response : Type := mkResponse {
  status_code : Z;
  headers : list (string * string);
  content : string;
  text : string;
  json : option pyval
}.

(** [resp.headers.get(name)]: header names compare without case and repeated
    headers are joined with a comma. *)
Definition headers_get (name : string) (h : list (string * string))
    : option string :=
  match filter (fun kv => String.eqb (lower (fst kv)) (lower name)) h with
  | [] => None
  | kv :: more =>
      Some (fold_left (fun acc kv' => acc ++ ", " ++ snd kv') more (snd kv))
  end.

(** [resp.is_success] *)
Definition is_success (r : Response) : bool :=
  (200 <=? status_code r) && (status_code r <=? 299).

(** One scripted exchange of the transport: the time it takes and how it
    ends -- with a response, with an [httpx.TransportError] (connection
    failure, timeout) or with another exception of the library. *)
Inductive Outcome : Type :=
| Responds (r : Response)
| TransportFails (what : string)
| HttpxFails (what : string).

Record Exchange : Type := mkExchange { took : Q; outcome : Outcome }.

(** The requests the SDK sends. *)
Inductive AuthHeaders : Type :=
| NoAuth
| XApiKey (key : string)
| AuthorizationBearer (token : pyval).

Inductive Call : Type :=
| TokenPost (url client_id client_secret : string)
| ApiCall (method url : string) (body : option pydict) (auth : AuthHeaders).

End Httpx.

(** ** State and the monad of the SDK's methods *)

Module Run.
Import Py Exceptions Httpx.

(** [OAuth2TokenManager._cache] *)
Record _TokenCache : Type := mkTokenCache {
  access_token : pyval;
  expires_at : pyfloat
}.

Record State : Type := mkState {
  now : Q;                       (* what time.time() returns *)
  net : list Exchange;           (* the transport's script, next exchange first *)
  sent : list Call;              (* requests issued so far, oldest first *)
  slept : list pyfloat;          (* completed time.sleep calls, oldest first *)
  cache : option _TokenCache     (* the token manager's cache *)
}.

Inductive result (A : Type) : Type :=
| Ok (a : A)
| Raise (e : exn).
Arguments Ok {A} a.
Arguments Raise {A} e.

Definition M (A : Type) : Type := State -> result A * State.

Definition ret {A} (a : A) : M A := fun st => (Ok a, st).

Definition raise {A} (e : exn) : M A := fun st => (Raise e, st).

Definition bind {A B} (m : M A) (k : A -> M B) : M B :=
  fun st =>
    match m st with
    | (Ok a, st') => k a st'
    | (Raise e, st') => (Raise e, st')
    end.

Declare Scope py_scope.
Delimit Scope py_scope with py.
Notation "x <- m ;; k" := (bind m (fun x => k))
  (at level 61, m at next level, right associativity) : py_scope.
Notation "m ;;; k" := (bind m (fun _ => k))
  (at level 61, right associativity) : py_scope.
Open Scope py_scope.

(** [try: m  except httpx.TransportError as exc: ...]: the caught exception is
    handed to the caller on the left, anything else propagates. *)
Definition try_transport {A} (m : M A) : M (exn + A) :=
  fun st =>
    match m st with
    | (Ok a, st') => (Ok (inr a), st')
    | (Raise e, st') =>
        if is_transport_error e then (Ok (inl e), st') else (Raise e, st')
    end.

(** [time.time()] *)
Definition time_time : M pyfloat := fun st => (Ok (Fin (now st)), st).

(** The largest number of seconds that fits the interpreter's 64-bit
    nanosecond clock. *)
Definition PYTIME_MAX : Q := Qmake (2 ^ 63 - 1) (10 ^ 9).

(** The state once a sleep of [q] seconds has completed. *)
Definition after_sleep (q : Q) (st : State) : State :=
  mkState (now st + q) (net st) (sent st) (slept st ++ [Fin q]) (cache st).

(** [time.sleep(secs)]: NaN and negative lengths raise [ValueError], lengths
    beyond the clock's range raise [OverflowError]; otherwise the call blocks
    for [secs], which the state records. *)
Definition time_sleep (secs : pyfloat) : M unit :=
  fun st =>
    match secs with
    | NaN => (Raise ExValueError, st)
    | PInf | NInf => (Raise ExOverflowError, st)
    | Fin q =>
        if Qltb PYTIME_MAX (Qabs q) then (Raise ExOverflowError, st)
        else if Qltb q 0 then (Raise ExValueError, st)
        else (Ok tt, after_sleep q st)
    end.

(** The state once call [c] has used up exchange [x], the script going on
    with [rest]. *)
Definition after_exchange (c : Call) (x : Exchange) (rest : list Exchange)
    (st : State) : State :=
  mkState (now st + took x) rest (sent st ++ [c]) (slept st) (cache st).

(** One call into the transport: the request is recorded and the next
    scripted exchange decides how it ends; a transport with nothing left to
    say refuses the connection. *)
Definition http_send (c : Call) : M Response :=
  fun st =>
    match net st with
    | [] =>
        (Raise (ExTransport "ConnectError"),
         mkState (now st) [] (sent st ++ [c]) (slept st) (cache st))
    | x :: rest =>
        let st' := after_exchange c x rest st in
        match outcome x with
        | Responds r => (Ok r, st')
        | TransportFails what => (Raise (ExTransport what), st')
        | HttpxFails what => (Raise (ExHttpxOther what), st')
        end
    end.

(** [resp.raise_for_status()] *)
Definition raise_for_status (r : Response) : M unit :=
  if is_success r then ret tt else raise (ExHTTPStatus (status_code r)).

(** [resp.json()] *)
Definition resp_json (r : Response) : M pyval :=
  match json r with
  | Some v => ret v
  | None => raise ExJSONDecode
  end.

(** [resp.json() if resp.content else dflt] *)
Definition json_if_content (r : Response) (dflt : pyval) : M pyval :=
  if negb (String.eqb (content r) "") then resp_json r else ret dflt.

(** The value of that expression when the body is empty or decodes. *)
Definition body_value (r : Response) (dflt : pyval) : option pyval :=
  if negb (String.eqb (content r) "") then json r else Some dflt.

(** A length that [time.sleep] accepts. *)
Definition sleepable (q : Q) : bool :=
  negb (Qltb PYTIME_MAX (Qabs q)) && negb (Qltb q 0).

(** [data.get(k, dflt)] on an arbitrary value: only a dict has [get]. *)
Definition py_get (data : pyval) (k : string) (dflt : pyval) : M pyval :=
  match data with
  | VDict d => ret (dict_get_default k dflt d)
  | _ => raise ExAttributeError
  end.

(** [data[k]] for a string key. *)
Definition py_getitem (data : pyval) (k : string) : M pyval :=
  match data with
  | VDict d =>
      match dict_get k d with
      | Some v => ret v
      | None => raise (ExKeyError k)
      end
  | _ => raise ExTypeError
  end.

(** [t + v] for a float [t]. *)
Definition float_plus (t : pyfloat) (v : pyval) : M pyfloat :=
  match v with
  | VInt z => ret (fadd t (of_Z z))
  | VBool b => ret (fadd t (of_Z (if b then 1 else 0)))
  | VFloat f => ret (fadd t f)
  | _ => raise ExTypeError
  end.

Definition set_cache (tc : _TokenCache) : M unit :=
  fun st => (Ok tt, mkState (now st) (net st) (sent st) (slept st) (Some tc)).

Definition get_cache : M (option _TokenCache) :=
  fun st => (Ok (cache st), st).

End Run.

(** ** auth.py *)

Module Auth.
Import Py Exceptions Httpx Run.

Record OAuth2TokenManager : Type := mkTokenManager {
  _client_id : string;
  _client_secret : string;
  _token_url : string
}.

(** The test of the first line of [get_token], read off a state. *)
Definition token_is_fresh (st : State) : bool :=
  match cache st with
  | Some tc => flt (Fin (now st)) (fsub (expires_at tc) (of_Z 30))
  | None => false
  end.

(** [OAuth2TokenManager.get_token] *)
Definition get_token (self : OAuth2TokenManager) : M pyval :=
  c <- get_cache ;;
  (* [self._cache and time.time() < self._cache.expires_at - 30]: the clock
     is read only when a cache entry exists *)
  fresh <- match c with
           | Some tc =>
               t <- time_time ;;
               ret (flt t (fsub (expires_at tc) (of_Z 30)))
           | None => ret false
           end ;;
  match c, fresh with
  | Some tc, true => ret (access_token tc)
  | _, _ =>
      resp <- http_send (TokenPost (_token_url self) (_client_id self)
                           (_client_secret self)) ;;
      raise_for_status resp ;;;
      data <- resp_json resp ;;
      tok <- py_getitem data "access_token" ;;
      t' <- time_time ;;
      ttl <- py_get data "expires_in" (VInt 3600) ;;
      exp <- float_plus t' ttl ;;
      set_cache (mkTokenCache tok exp) ;;;
      ret tok
  end.

End Auth.

(** ** client.py *)

Module Client.
Import Py PyStr Exceptions Models Httpx Run Auth.

Definition _MAX_RETRIES : Z := 3.

(** [range(n)] *)
Definition range (n : Z) : list Z := map Z.of_nat (seq 0 (Z.to_nat n)).

Definition _to_camel (name : string) : string :=
  match split_underscore name with
  | [] => EmptyString
  | p0 :: ps => p0 ++ join (map capitalize ps)
  end.

(** [v != "" and v != 0], the filter of the comprehension, and
    [{_to_camel(k): v for k, v in raw.items() if v != "" and v != 0}]. *)
Definition kept (v : pyval) : bool :=
  negb (eq_empty_str v) && negb (eq_zero v).

Definition camel_items (raw : pydict) : pydict :=
  fold_left
    (fun acc kv =>
       if kept (snd kv) then dict_set (_to_camel (fst kv)) (snd kv) acc
       else acc)
    raw [].

Definition _serialize (obj : Request) : pydict := camel_items (asdict obj).

Record IntelligentDataClient : Type := mkClient {
  _api_key : option string;
  _base_url : string;
  _oauth : option OAuth2TokenManager
}.

(** [s.rstrip("/")] *)
Definition rstrip_slash (s : string) : string :=
  let fix drop (l : list ascii) : list ascii :=
    match l with
    | c :: l' => if Ascii.eqb c "/" then drop l' else l
    | [] => []
    end in
  string_of_list_ascii (rev (drop (rev (list_ascii_of_string s)))).

Definition str_truthy (s : option string) : bool :=
  match s with
  | Some s' => negb (String.eqb s' "")
  | None => false
  end.

(** [IntelligentDataClient.__init__] *)
Definition new_client (api_key client_id client_secret token_url : option string)
    (base_url : string) : IntelligentDataClient :=
  let base := rstrip_slash base_url in
  mkClient api_key base
    (match client_id, client_secret with
     | Some cid, Some sec =>
         if str_truthy client_id && str_truthy client_secret then
           Some (mkTokenManager cid sec
                   (if str_truthy token_url
                    then match token_url with Some u => u | None => "" end
                    else base ++ "/api/oauth/token"))
         else None
     | _, _ => None
     end).

(** [IntelligentDataClient._headers] *)
Definition _headers (self : IntelligentDataClient) : M AuthHeaders :=
  if str_truthy (_api_key self) then
    ret (XApiKey (match _api_key self with Some key => key | None => "" end))
  else
    match _oauth self with
    | Some tm => tok <- get_token tm ;; ret (AuthorizationBearer tok)
    | None => ret NoAuth
    end.

(** The call inside the [try]: the headers are built first, then the request
    goes out. *)
Definition send_request (self : IntelligentDataClient) (method url : string)
    (body : option pydict) : M Response :=
  h <- _headers self ;;
  http_send (ApiCall method url body h).

(** The value of [float(resp.headers.get("Retry-After", 2**attempt))];
    [None] when [float] rejects the header's text. *)
Definition retry_after_value (resp : Response) (attempt : Z) : option pyfloat :=
  match headers_get "Retry-After" (headers resp) with
  | Some s => float_of_str s
  | None => Some (of_Z (2 ^ attempt))
  end.

Definition read_retry_after (resp : Response) (attempt : Z) : M pyfloat :=
  match retry_after_value resp attempt with
  | Some f => ret f
  | None => raise ExValueError
  end.

(** How one pass through the body of the [for] loop ends when it does not
    raise: [continue] (with the current [last_err]) or [return]. *)
Inductive step : Type :=
| Continue (last_err : option exn)
| Return (v : pyval).

(** The body of [for attempt in range(_MAX_RETRIES)] once a response has
    arrived: the classification by status code. *)
Definition handle_response (attempt : Z) (last_err : option exn)
    (resp : Response) : M step :=
  if status_code resp =? 429 then
    retry_after <- read_retry_after resp attempt ;;
    if attempt <? _MAX_RETRIES - 1 then
      time_sleep retry_after ;;;
      ret (Continue last_err)
    else
      raw <- json_if_content resp VNone ;;
      raise (ExApi (RateLimitError retry_after raw))
  else if 500 <=? status_code resp then
    let err := ExApi (ApiError (status_code resp) (VStr (text resp)) VNone) in
    if attempt <? _MAX_RETRIES - 1 then
      time_sleep (of_Z (2 ^ attempt)) ;;;
      ret (Continue (Some err))
    else raise err
  else if (status_code resp =? 401) || (status_code resp =? 403) then
    data <- json_if_content resp (VDict []) ;;
    msg <- py_get data "message" (VStr "Authentication failed") ;;
    raise (ExApi (AuthenticationError msg data))
  else if 400 <=? status_code resp then
    data <- json_if_content resp (VDict []) ;;
    msg <- py_get data "message" (VStr "Request failed") ;;
    raise (ExApi (ApiError (status_code resp) msg data))
  else
    v <- resp_json resp ;;
    ret (Return v).

(** The whole body of the loop. *)
Definition attempt_body (self : IntelligentDataClient) (method url : string)
    (body : option pydict) (attempt : Z) (last_err : option exn) : M step :=
  r <- try_transport (send_request self method url body) ;;
  match r with
  | inl exc =>
      time_sleep (of_Z (2 ^ attempt)) ;;;
      ret (Continue (Some exc))
  | inr resp => handle_response attempt last_err resp
  end.

(** How the [for] loop ends when it does not raise. *)
Inductive loop_end : Type :=
| Returned (v : pyval)
| Exhausted (last_err : option exn).

Fixpoint request_loop (self : IntelligentDataClient) (method url : string)
    (body : option pydict) (attempts : list Z) (last_err : option exn)
    : M loop_end :=
  match attempts with
  | [] => ret (Exhausted last_err)
  | attempt :: rest =>
      s <- attempt_body self method url body attempt last_err ;;
      match s with
      | Continue last_err' => request_loop self method url body rest last_err'
      | Return v => ret (Returned v)
      end
  end.

(** The same response under another status code. *)
Definition with_status (s : Z) (r : Response) : Response :=
  mkResponse s (headers r) (content r) (text r) (json r).

(** The error of the line after the loop. *)
Definition fallback_error : exn :=
  ExApi (ApiError 0 (VStr "Request failed after retries") VNone).

(** [IntelligentDataClient._request]; an exception object is always truthy,
    so [last_err or ...] picks the fallback only when [last_err] is [None]. *)
Definition _request (self : IntelligentDataClient) (method path : string)
    (body : option pydict) : M pyval :=
  let url := _base_url self ++ path in
  e <- request_loop self method url body (range _MAX_RETRIES) None ;;
  match e with
  | Returned v => ret v
  | Exhausted (Some err) => raise err
  | Exhausted None => raise fallback_error
  end.

(** *** The public methods *)

Definition validate_address (self : IntelligentDataClient) (req : AddressRequest)
    : M AddressResponse :=
  data <- _request self "POST" "/api/validate/address"
            (Some (_serialize (ReqAddress req))) ;;
  is_valid <- py_get data "isValid" (VBool false) ;;
  score <- py_get data "confidenceScore" (VFloat (Fin 0)) ;;
  std <- py_get data "standardizedAddress" (VDict []) ;;
  ret (mkAddressResponse is_valid score std data).

Definition validate_tax_id (self : IntelligentDataClient) (req : TaxIdRequest)
    : M TaxIdResponse :=
  data <- _request self "POST" "/api/validate/taxid"
            (Some (_serialize (ReqTaxId req))) ;;
  is_valid <- py_get data "isValid" (VBool false) ;;
  ty <- py_get data "taxIdType" (VStr "") ;;
  country <- py_get data "country" (VStr "") ;;
  name <- py_get data "registeredName" (VStr "") ;;
  ret (mkTaxIdResponse is_valid ty country name data).

Definition validate_bank_account (self : IntelligentDataClient)
    (req : BankAccountRequest) : M BankAccountResponse :=
  data <- _request self "POST" "/api/validate/bank"
            (Some (_serialize (ReqBankAccount req))) ;;
  is_valid <- py_get data "isValid" (VBool false) ;;
  name <- py_get data "bankName" (VStr "") ;;
  ty <- py_get data "accountType" (VStr "") ;;
  ret (mkBankAccountResponse is_valid name ty data).

Definition lookup_business (self : IntelligentDataClient)
    (req : BusinessLookupRequest) : M BusinessLookupResponse :=
  data <- _request self "POST" "/api/enrich/business"
            (Some (_serialize (ReqBusinessLookup req))) ;;
  fnd <- py_get data "found" (VBool false) ;;
  name <- py_get data "companyName" (VStr "") ;;
  number <- py_get data "registrationNumber" (VStr "") ;;
  status <- py_get data "status" (VStr "") ;;
  address <- py_get data "address" (VDict []) ;;
  ret (mkBusinessLookupResponse fnd name number status address data).

Definition check_sanctions (self : IntelligentDataClient) (req : SanctionsRequest)
    : M SanctionsResponse :=
  data <- _request self "POST" "/api/risk/sanctions"
            (Some (_serialize (ReqSanctions req))) ;;
  has <- py_get data "hasMatches" (VBool false) ;;
  ms <- py_get data "matches" (VList []) ;;
  lists <- py_get data "screenedLists" (VList []) ;;
  ret (mkSanctionsResponse has ms lists data).

Definition check_directors (self : IntelligentDataClient) (req : DirectorsRequest)
    : M DirectorsResponse :=
  data <- _request self "POST" "/api/risk/directors"
            (Some (_serialize (ReqDirectors req))) ;;
  has <- py_get data "hasDisqualified" (VBool false) ;;
  ds <- py_get data "directors" (VList []) ;;
  ret (mkDirectorsResponse has ds data).

End Client.

Import Py PyStr Exceptions Models Httpx Run Auth Client.

(** ** Notions used in the statements *)

(** [m] never changes the observation [f] of the state, however it ends. *)
Definition preserves {X A} (f : State -> X) (m : M A) : Prop :=
  forall st r st', m st = (r, st') -> f st' = f st.

(** The transport as the SDK leaves it: requests sent and script left. *)
Definition traffic (st : State) : list Call * list Exchange :=
  (sent st, net st).

(** Every exception [m] can raise satisfies [P]. *)
Definition raises_only {A} (P : exn -> Prop) (m : M A) : Prop :=
  forall st e st', m st = (Raise e, st') -> P e.

(** An exception that is not an instance of [ApiError]. *)
Definition foreign (e : exn) : Prop := is_api_error e = false.

Definition not_fallback (e : exn) : Prop := e <> fallback_error.

(** Every value [m] can return satisfies [Q]. *)
Definition returns_only {A} (Q : A -> Prop) (m : M A) : Prop :=
  forall st a st', m st = (Ok a, st') -> Q a.

(** A pass that ends in [continue] after a response had attempts left. *)
Definition continue_has_attempts_left (attempt : Z) (s : step) : Prop :=
  match s with
  | Continue _ => (attempt <? _MAX_RETRIES - 1) = true
  | Return _ => True
  end.

(** The request of a token refresh. *)
Definition token_post (tm : OAuth2TokenManager) : Call :=
  TokenPost (_token_url tm) (_client_id tm) (_client_secret tm).

(** [get_token] past its first line, named to state how a refresh goes. *)
Definition get_token_tail (tm : OAuth2TokenManager) : M pyval :=
  resp <- http_send (token_post tm) ;;
  raise_for_status resp ;;;
  data <- resp_json resp ;;
  tok <- py_getitem data "access_token" ;;
  t' <- time_time ;;
  ttl <- py_get data "expires_in" (VInt 3600) ;;
  exp <- float_plus t' ttl ;;
  set_cache (mkTokenCache tok exp) ;;;
  ret tok.

(** ["_" in s] *)
Fixpoint has_underscore (s : string) : bool :=
  match s with
  | EmptyString => false
  | String c s' => Ascii.eqb c "_" || has_underscore s'
  end.

Definition is_api_call (c : Call) : bool :=
  match c with
  | ApiCall _ _ _ _ => true
  | TokenPost _ _ _ => false
  end.

(** Counters read off a state: resource requests and token requests sent so
    far, and completed sleeps. *)
Definition api_calls (st : State) : nat :=
  List.length (filter is_api_call (sent st)).

Definition token_posts (st : State) : nat :=
  List.length (filter (fun c => negb (is_api_call c)) (sent st)).

Definition sleeps (st : State) : nat := List.length (slept st).

(** [m] never lowers the counter [f] and raises it by [n] at most. *)
Definition bounded {A} (f : State -> nat) (n : nat) (m : M A) : Prop :=
  forall st r st', m st = (r, st') -> (f st <= f st' <= f st + n)%nat.

(** The requests [m] issues all satisfy [P]; it removes none from the log. *)
Definition only_sends {A} (P : Call -> Prop) (m : M A) : Prop :=
  forall st r st', m st = (r, st') ->
    exists new, sent st' = (sent st ++ new)%list /\ Forall P new.

(** An [ApiError] instance as the executor builds them: the class fixes the
    status code, and only [RateLimitError] has a retry-after value. *)
Definition well_classified (a : api_error) : Prop :=
  match cls a with
  | ClsAuthenticationError =>
      Exceptions.status_code a = 401 /\ retry_after a = None
  | ClsRateLimitError =>
      Exceptions.status_code a = 429 /\
      message a = VStr "Rate limit exceeded" /\ retry_after a <> None
  | ClsApiError =>
      400 <= Exceptions.status_code a /\ Exceptions.status_code a <> 401 /\
      Exceptions.status_code a <> 403 /\ Exceptions.status_code a <> 429 /\
      retry_after a = None
  end.

(** An exception that, if it is an [ApiError], is a well-classified one with
    a [raw] other than [None]. *)
Definition classified (e : exn) : Prop :=
  forall a, e = ExApi a -> well_classified a /\ raw a <> VNone.

(** When [m] raises, the observation [g] of the state is what it was. *)
Definition fails_keep {X A} (g : State -> X) (m : M A) : Prop :=
  forall st e st', m st = (Raise e, st') -> g st' = g st.


(** [s.endswith("/")] *)
Definition ends_with_slash (s : string) : bool :=
  match rev (list_ascii_of_string s) with
  | c :: _ => Ascii.eqb c "/"
  | [] => false
  end.

(** [isinstance(v, dict)] *)
Definition is_dict (v : pyval) : bool :=
  match v with
  | VDict _ => true
  | _ => false
  end.

(** ** Fixtures: clients, a stub transport and some responses *)

Definition api_key_client : IntelligentDataClient :=
  new_client (Some "svm-test-key") None None None "https://api.smartvmapi.com/".

Definition keyed_oauth_client : IntelligentDataClient :=
  new_client (Some "svm-test-key") (Some "id") (Some "secret") None
    "https://api.smartvmapi.com".

Definition oauth_client : IntelligentDataClient :=
  new_client None (Some "id") (Some "secret") None "https://api.smartvmapi.com".

(** A fresh client state at time 0 whose transport answers with [script]. *)
Definition stub (script : list Outcome) : State :=
  mkState 0 (map (mkExchange 0) script) [] [] None.

Definition resp_429 (retry_after : string) : Response :=
  mkResponse 429 [("Retry-After", retry_after)] "" "" None.

Definition resp_429_plain : Response := mkResponse 429 [] "" "" None.

Definition resp_200 : Response :=
  mkResponse 200 [("content-type", "application/json")] "{}" "{}"
    (Some (VDict [])).

Definition resp_html (status : Z) : Response :=
  mkResponse status [("content-type", "text/html")]
    "<html><body>denied</body></html>" "<html><body>denied</body></html>" None.

Definition address_path : string := "/api/validate/address".

Definition resp_429_text : Response :=
  mkResponse 429 [("Retry-After", "1")] "Too Many Requests" "Too Many Requests"
    None.

Definition resp_list_body (status : Z) : Response :=
  mkResponse status [] "[1]" "[1]" (Some (VList [VInt 1])).

Definition resp_503 : Response :=
  mkResponse 503 [] "upstream down" "upstream down" None.

Definition resp_204 : Response := mkResponse 204 [] "" "" None.

Definition token_response (d : pydict) : Response :=
  mkResponse 200 [] "{}" "{}" (Some (VDict d)).

Definition address_body : pydict :=
  [("isValid", VBool true); ("confidenceScore", VFloat (Fin (9 # 10)))].

Definition main_street : AddressRequest :=
  mkAddressRequest "123 Main St" "New York" "US" "" "" "".

Definition resp_404_empty : Response := mkResponse 404 [] "" "" None.

Definition resp_401_empty : Response := mkResponse 401 [] "" "" None.

Definition resp_403_empty : Response := mkResponse 403 [] "" "" None.

Definition http_date : string := "Wed, 21 Oct 2015 07:28:00 GMT".

Definition token_manager : OAuth2TokenManager :=
  mkTokenManager "id" "secret" "https://api.smartvmapi.com/api/oauth/token".

Definition cached (expires : Q) : State :=
  mkState 1000 [mkExchange 0 (Responds resp_200)] [] []
    (Some (mkTokenCache (VStr "cached-token") (Fin expires))).

(** * Properties *)

(** ** Serialization of request objects *)

Section Serialization.
Import Py PyStr Models Client.

Lemma dict_get_set (k k' : string) (v : pyval) (d : pydict) :
  dict_get k (dict_set k' v d) = if String.eqb k k' then Some v else dict_get k d.
Proof.
  induction d as [|[k0 v0] d IH]; simpl.
  - destruct (String.eqb k k'); reflexivity.
  - destruct (String.eqb k' k0) eqn:E0; simpl.
    + apply String.eqb_eq in E0; subst k0.
      destruct (String.eqb k k'); reflexivity.
    + destruct (String.eqb k k0) eqn:E1.
      * apply String.eqb_eq in E1; subst k0.
        rewrite String.eqb_sym in E0. now rewrite E0.
      * exact IH.
Qed.

Lemma camel_items_snoc (raw : pydict) (kv : string * pyval) :
  camel_items (raw ++ [kv])%list =
  if kept (snd kv) then dict_set (_to_camel (fst kv)) (snd kv) (camel_items raw)
  else camel_items raw.
Proof.
  unfold camel_items. rewrite fold_left_app. reflexivity.
Qed.

(** Every entry of the result comes from a kept field. *)
Lemma camel_items_sound (raw : pydict) (key : string) (v : pyval) :
  dict_get key (camel_items raw) = Some v ->
  exists k, In (k, v) raw /\ key = _to_camel k /\ kept v = true.
Proof.
  induction raw as [|[k0 v0] raw IH] using rev_ind.
  - discriminate.
  - rewrite camel_items_snoc. simpl fst; simpl snd.
    destruct (kept v0) eqn:K.
    + rewrite dict_get_set. destruct (String.eqb key (_to_camel k0)) eqn:E.
      * intros H; injection H as <-. apply String.eqb_eq in E.
        exists k0. repeat split; auto. apply in_or_app; right; now left.
      * intros H. destruct (IH H) as (k & Hin & ? & ?).
        exists k. repeat split; auto. apply in_or_app; now left.
    + intros H. destruct (IH H) as (k & Hin & ? & ?).
      exists k. repeat split; auto. apply in_or_app; now left.
Qed.

(** With distinct wire names, each field is decided by its own value. *)
Lemma camel_items_complete (raw : pydict) :
  NoDup (map _to_camel (keys raw)) ->
  forall k v, In (k, v) raw ->
    dict_get (_to_camel k) (camel_items raw) = if kept v then Some v else None.
Proof.
  induction raw as [|[k0 v0] raw IH] using rev_ind; intros ND k v Hin.
  - destruct Hin.
  - unfold keys in ND. rewrite !map_app in ND. simpl in ND.
    apply NoDup_remove in ND. rewrite app_nil_r in ND. destruct ND as [ND Hfresh].
    rewrite camel_items_snoc. simpl fst; simpl snd.
    assert (Hnone : dict_get (_to_camel k0) (camel_items raw) = None).
    { destruct (dict_get (_to_camel k0) (camel_items raw)) as [w|] eqn:G; auto.
      destruct (camel_items_sound _ _ _ G) as (k1 & Hin1 & Hk & _).
      exfalso. apply Hfresh. rewrite Hk.
      apply in_map. change k1 with (fst (k1, w)). now apply in_map. }
    apply in_app_or in Hin. destruct Hin as [Hin|[Heq|[]]].
    + assert (Hne : String.eqb (_to_camel k) (_to_camel k0) = false).
      { apply String.eqb_neq. intros E. apply Hfresh. rewrite <- E.
        apply in_map. change k with (fst (k, v)). now apply in_map. }
      destruct (kept v0).
      * rewrite dict_get_set, Hne. now apply IH.
      * now apply IH.
    + injection Heq as <- <-.
      destruct (kept v0).
      * now rewrite dict_get_set, String.eqb_refl.
      * exact Hnone.
Qed.

Lemma asdict_wire_names_distinct (obj : Request) :
  NoDup (map _to_camel (keys (asdict obj))).
Proof.
  destruct obj; cbv -[In];
    repeat (constructor; [cbv; intuition discriminate|]); constructor.
Qed.

(** The fields of a typed request hold strings. *)
Lemma asdict_values_are_strings (obj : Request) (k : string) (v : pyval) :
  In (k, v) (asdict obj) -> exists s, v = VStr s.
Proof.
  destruct obj; simpl; intros H;
    repeat (destruct H as [H|H]; [injection H as <- <-; eauto|]); destruct H.
Qed.

(** C8: serializing a typed request drops exactly the fields that equal the
    empty string or zero; every other field is present under its camel-case
    name with its value unchanged, and nothing else is in the result.  An
    [AddressRequest] with [address_line2 = ""] has no ["addressLine2"] key. *)
Theorem serialize_omits_defaults (obj : Request) :
  (forall k v, In (k, v) (asdict obj) ->
     (eq_empty_str v = true \/ eq_zero v = true ->
      dict_get (_to_camel k) (_serialize obj) = None) /\
     (eq_empty_str v = false /\ eq_zero v = false ->
      dict_get (_to_camel k) (_serialize obj) = Some v)) /\
  (forall key v, dict_get key (_serialize obj) = Some v ->
     exists k, In (k, v) (asdict obj) /\ key = _to_camel k) /\
  (forall r, obj = ReqAddress r ->
     _to_camel "address_line2" = "addressLine2" /\
     (address_line2 r = "" ->
      dict_get "addressLine2" (_serialize obj) = None) /\
     (address_line2 r <> "" ->
      dict_get "addressLine2" (_serialize obj) = Some (VStr (address_line2 r)))).
Proof.
  assert (Hfield : forall k v, In (k, v) (asdict obj) ->
            dict_get (_to_camel k) (_serialize obj) =
            if kept v then Some v else None).
  { intros k v Hin. unfold _serialize.
    apply camel_items_complete; auto using asdict_wire_names_distinct. }
  split; [|split].
  - intros k v Hin. rewrite (Hfield k v Hin). unfold kept. split.
    + intros [E|E]; rewrite E; simpl; auto. now rewrite andb_false_r.
    + intros [E1 E2]. now rewrite E1, E2.
  - intros key v H. unfold _serialize in H.
    destruct (camel_items_sound _ _ _ H) as (k & Hin & Hk & _). eauto.
  - intros r ->. split; [reflexivity|].
    assert (Hin : In ("address_line2", VStr (address_line2 r))
                    (asdict (ReqAddress r))) by (simpl; tauto).
    specialize (Hfield _ _ Hin).
    change (_to_camel "address_line2") with "addressLine2" in Hfield.
    rewrite Hfield. unfold kept, eq_empty_str, eq_zero. simpl.
    split; intros E.
    + rewrite E. reflexivity.
    + apply String.eqb_neq in E. now rewrite E.
Qed.

Lemma serialize_omits_defaults_witness :
  let obj := ReqAddress (mkAddressRequest "123 Main St" "New York" "US" "" "NY" "") in
  In ("address_line2", VStr "") (asdict obj) /\
  dict_get "addressLine2" (_serialize obj) = None /\
  dict_get "state" (_serialize obj) = Some (VStr "NY").
Proof.
  intros obj.
  destruct (serialize_omits_defaults obj) as (Hfield & _ & Haddr).
  split; [simpl; tauto|]. split.
  - apply (Haddr _ eq_refl). reflexivity.
  - apply (Hfield "state" (VStr "NY")); [simpl; tauto|]. split; reflexivity.
Defined.

End Serialization.
(** ** The request executor *)


Lemma time_sleep_ok (q : Q) (st : State) :
  sleepable q = true -> time_sleep (Fin q) st = (Ok tt, after_sleep q st).
Proof.
  unfold sleepable, time_sleep. intros H.
  apply andb_prop in H. destruct H as [H1 H2].
  apply negb_true_iff in H1, H2. now rewrite H1, H2.
Qed.

(** *** Frame lemmas: what a computation leaves untouched *)

Section Frame.

Context {X : Type} (f : State -> X).

Lemma preserves_ret {A} (a : A) : preserves f (ret a).
Proof. intros st r st' H. now inversion H. Qed.

Lemma preserves_raise {A} (e : exn) : preserves f (@raise A e).
Proof. intros st r st' H. now inversion H. Qed.

Lemma preserves_bind {A B} (m : M A) (k : A -> M B) :
  preserves f m -> (forall a, preserves f (k a)) -> preserves f (bind m k).
Proof.
  intros Hm Hk st r st' H. unfold bind in H.
  destruct (m st) as [[a|e] st0] eqn:E.
  - rewrite (Hk a _ _ _ H). exact (Hm _ _ _ E).
  - inversion H; subst. exact (Hm _ _ _ E).
Qed.

Lemma preserves_time_time : preserves f time_time.
Proof. intros st r st' H. now inversion H. Qed.

Lemma preserves_get_cache : preserves f get_cache.
Proof. intros st r st' H. now inversion H. Qed.

Lemma preserves_raise_for_status (r : Response) :
  preserves f (raise_for_status r).
Proof.
  unfold raise_for_status.
  destruct (is_success r); auto using @preserves_ret, @preserves_raise.
Qed.

Lemma preserves_resp_json (r : Response) : preserves f (resp_json r).
Proof.
  unfold resp_json.
  destruct (json r); auto using @preserves_ret, @preserves_raise.
Qed.

Lemma preserves_py_getitem (v : pyval) (k : string) :
  preserves f (py_getitem v k).
Proof.
  unfold py_getitem. destruct v; auto using @preserves_raise.
  destruct (dict_get k d); auto using @preserves_ret, @preserves_raise.
Qed.

Lemma preserves_py_get (v : pyval) (k : string) (dflt : pyval) :
  preserves f (py_get v k dflt).
Proof.
  unfold py_get. destruct v; auto using @preserves_ret, @preserves_raise.
Qed.

Lemma preserves_float_plus (t : pyfloat) (v : pyval) :
  preserves f (float_plus t v).
Proof.
  unfold float_plus. destruct v; auto using @preserves_ret, @preserves_raise.
Qed.

End Frame.

Lemma slept_http_send (c : Call) : preserves slept (http_send c).
Proof.
  intros st r st' H. unfold http_send, after_exchange in H.
  destruct (net st) as [|x rest]; [now inversion H|].
  destruct (outcome x); now inversion H.
Qed.

Lemma cache_http_send (c : Call) : preserves cache (http_send c).
Proof.
  intros st r st' H. unfold http_send, after_exchange in H.
  destruct (net st) as [|x rest]; [now inversion H|].
  destruct (outcome x); now inversion H.
Qed.

Lemma slept_set_cache (tc : _TokenCache) : preserves slept (set_cache tc).
Proof. intros st r st' H. now inversion H. Qed.

Lemma traffic_set_cache (tc : _TokenCache) : preserves traffic (set_cache tc).
Proof. intros st r st' H. now inversion H. Qed.

Create HintDb frame.
#[local] Hint Resolve preserves_ret preserves_raise preserves_time_time
  preserves_get_cache preserves_raise_for_status preserves_resp_json
  preserves_py_getitem preserves_py_get preserves_float_plus
  slept_http_send cache_http_send slept_set_cache traffic_set_cache : frame.

(** Walks down a chain of binds, closing each step from the hint base. *)
Ltac frame_steps :=
  repeat (apply preserves_bind; [auto with frame | intros ?]);
  auto with frame.

Lemma slept_get_token (tm : OAuth2TokenManager) :
  preserves slept (get_token tm).
Proof.
  unfold get_token.
  apply preserves_bind; [auto with frame | intros c].
  apply preserves_bind.
  - destruct c; frame_steps.
  - intros fresh. destruct c as [tc|]; [destruct fresh|]; frame_steps.
Qed.

(** Building the headers and sending the request never sleeps. *)
Lemma no_sleep_send_request (self : IntelligentDataClient) (method url : string)
    (body : option pydict) :
  preserves slept (send_request self method url body).
Proof.
  unfold send_request, _headers.
  apply preserves_bind; [|auto with frame].
  destruct (str_truthy (_api_key self)); [auto with frame|].
  destruct (_oauth self); [|auto with frame].
  apply preserves_bind; [apply slept_get_token | auto with frame].
Qed.

Section Loop.

Variables (self : IntelligentDataClient) (method url : string)
          (body : option pydict).

Let loop := request_loop self method url body.
Let send := send_request self method url body.

(** A response hands the pass over to the classification. *)
Lemma attempt_body_response attempt last_err st resp st1 :
  send st = (Ok resp, st1) ->
  attempt_body self method url body attempt last_err st =
  handle_response attempt last_err resp st1.
Proof.
  unfold send, attempt_body, bind, try_transport. now intros ->.
Qed.

(** A transport failure is recorded and slept on, whatever the attempt. *)
Lemma attempt_body_transport attempt last_err st e st1 :
  send st = (Raise e, st1) -> is_transport_error e = true ->
  sleepable (inject_Z (2 ^ attempt)) = true ->
  attempt_body self method url body attempt last_err st =
  (Ok (Continue (Some e)), after_sleep (inject_Z (2 ^ attempt)) st1).
Proof.
  unfold send, attempt_body, bind, try_transport. intros -> -> Hs.
  unfold of_Z. now rewrite (time_sleep_ok _ _ Hs).
Qed.

Lemma loop_429_retry attempt rest last_err st resp st1 q :
  send st = (Ok resp, st1) ->
  Httpx.status_code resp = 429 ->
  retry_after_value resp attempt = Some (Fin q) ->
  sleepable q = true ->
  attempt < _MAX_RETRIES - 1 ->
  loop (attempt :: rest) last_err st = loop rest last_err (after_sleep q st1).
Proof.
  intros Hsend Hst Hra Hq Hlt. unfold loop. cbn [request_loop]. unfold bind at 1.
  rewrite (attempt_body_response _ _ _ _ _ Hsend).
  unfold handle_response, read_retry_after, bind, ret.
  rewrite Hst, Hra. cbn [Z.eqb Pos.eqb].
  apply Z.ltb_lt in Hlt. rewrite Hlt.
  now rewrite (time_sleep_ok _ _ Hq).
Qed.

Lemma loop_429_final attempt rest last_err st resp st1 f raw :
  send st = (Ok resp, st1) ->
  Httpx.status_code resp = 429 ->
  retry_after_value resp attempt = Some f ->
  _MAX_RETRIES - 1 <= attempt ->
  body_value resp VNone = Some raw ->
  loop (attempt :: rest) last_err st =
  (Raise (ExApi (RateLimitError f raw)), st1).
Proof.
  intros Hsend Hst Hra Hge Hbody. unfold loop. cbn [request_loop]. unfold bind at 1.
  rewrite (attempt_body_response _ _ _ _ _ Hsend).
  unfold handle_response, read_retry_after, bind, ret.
  rewrite Hst, Hra. cbn [Z.eqb Pos.eqb].
  apply Z.ltb_ge in Hge. rewrite Hge.
  unfold body_value in Hbody. unfold json_if_content, resp_json, raise, ret.
  destruct (negb (content resp =? "")%string).
  - now rewrite Hbody.
  - now injection Hbody as <-.
Qed.

Lemma loop_success attempt rest last_err st resp st1 v :
  send st = (Ok resp, st1) ->
  200 <= Httpx.status_code resp <= 299 ->
  json resp = Some v ->
  loop (attempt :: rest) last_err st = (Ok (Returned v), st1).
Proof.
  intros Hsend Hst Hjson. unfold loop. cbn [request_loop]. unfold bind at 1.
  rewrite (attempt_body_response _ _ _ _ _ Hsend).
  unfold handle_response, resp_json, bind, ret.
  replace (Httpx.status_code resp =? 429) with false by (symmetry; lia).
  replace (500 <=? Httpx.status_code resp) with false by (symmetry; lia).
  replace (Httpx.status_code resp =? 401) with false by (symmetry; lia).
  replace (Httpx.status_code resp =? 403) with false by (symmetry; lia).
  replace (400 <=? Httpx.status_code resp) with false by (symmetry; lia).
  cbn [orb]. now rewrite Hjson.
Qed.

(** On 401 and 403 the pass ends in an exception, in the state the response
    arrived in. *)
Lemma handle_auth_raises attempt last_err resp st :
  Httpx.status_code resp = 401 \/ Httpx.status_code resp = 403 ->
  exists e, handle_response attempt last_err resp st = (Raise e, st).
Proof.
  intros Hst. unfold handle_response.
  replace (Httpx.status_code resp =? 429) with false by (symmetry; lia).
  replace (500 <=? Httpx.status_code resp) with false by (symmetry; lia).
  replace ((Httpx.status_code resp =? 401) || (Httpx.status_code resp =? 403))
    with true by (symmetry; apply orb_true_iff; lia).
  unfold json_if_content, resp_json, py_get, bind, ret, raise.
  destruct (negb (content resp =? "")%string); cbn.
  - destruct (json resp) as [[]|]; cbn; eauto.
  - eauto.
Qed.

Lemma handle_auth_error attempt last_err resp st d :
  Httpx.status_code resp = 401 \/ Httpx.status_code resp = 403 ->
  body_value resp (VDict []) = Some (VDict d) ->
  handle_response attempt last_err resp st =
  (Raise (ExApi (AuthenticationError
                   (dict_get_default "message" (VStr "Authentication failed") d)
                   (VDict d))), st).
Proof.
  intros Hst Hbody. unfold handle_response.
  replace (Httpx.status_code resp =? 429) with false by (symmetry; lia).
  replace (500 <=? Httpx.status_code resp) with false by (symmetry; lia).
  replace ((Httpx.status_code resp =? 401) || (Httpx.status_code resp =? 403))
    with true by (symmetry; apply orb_true_iff; lia).
  unfold body_value in Hbody.
  unfold json_if_content, resp_json, py_get, bind, ret, raise.
  destruct (negb (content resp =? "")%string).
  - now rewrite Hbody.
  - now injection Hbody as <-.
Qed.

Lemma loop_raise attempt rest last_err st e st' :
  attempt_body self method url body attempt last_err st = (Raise e, st') ->
  loop (attempt :: rest) last_err st = (Raise e, st').
Proof.
  intros H. unfold loop. cbn [request_loop]. unfold bind. now rewrite H.
Qed.

End Loop.

Lemma request_of_loop_raise self method path body st e st' :
  request_loop self method (_base_url self ++ path) body (range _MAX_RETRIES)
    None st = (Raise e, st') ->
  _request self method path body st = (Raise e, st').
Proof.
  intros H. unfold _request, bind. now rewrite H.
Qed.

Lemma request_of_loop_return self method path body st v st' :
  request_loop self method (_base_url self ++ path) body (range _MAX_RETRIES)
    None st = (Ok (Returned v), st') ->
  _request self method path body st = (Ok v, st').
Proof.
  intros H. unfold _request, bind. now rewrite H.
Qed.

(** Retrying on 429.  A 429 whose [Retry-After] reads as [q] seconds makes
    the loop, while attempts remain, sleep [q] and go on with the next attempt
    without raising.  With the responses "429 with Retry-After: 1" then "200"
    the call returns the body of the 200 after the single sleep of 1 second.
    Three 429 responses in a row raise [RateLimitError] with the retry-after
    value of the third, after the two sleeps of the first two, provided the
    body of the third is empty or decodes. *)
Theorem retry_on_429 :
  (forall self method url body attempt rest last_err st resp st1 s q,
     send_request self method url body st = (Ok resp, st1) ->
     Httpx.status_code resp = 429 ->
     headers_get "Retry-After" (headers resp) = Some s ->
     float_of_str s = Some (Fin q) ->
     sleepable q = true ->
     attempt < _MAX_RETRIES - 1 ->
     request_loop self method url body (attempt :: rest) last_err st =
     request_loop self method url body rest last_err (after_sleep q st1)) /\
  (forall self method path body st r1 st1 r2 st2 v,
     let send := send_request self method (_base_url self ++ path) body in
     send st = (Ok r1, st1) ->
     Httpx.status_code r1 = 429 ->
     headers_get "Retry-After" (headers r1) = Some "1" ->
     send (after_sleep 1 st1) = (Ok r2, st2) ->
     Httpx.status_code r2 = 200 ->
     json r2 = Some v ->
     _request self method path body st = (Ok v, st2) /\
     slept st2 = (slept st ++ [Fin 1])%list) /\
  (forall self method path body st r1 st1 q1 r2 st2 q2 r3 st3 f3 raw,
     let send := send_request self method (_base_url self ++ path) body in
     send st = (Ok r1, st1) ->
     Httpx.status_code r1 = 429 ->
     retry_after_value r1 0 = Some (Fin q1) -> sleepable q1 = true ->
     send (after_sleep q1 st1) = (Ok r2, st2) ->
     Httpx.status_code r2 = 429 ->
     retry_after_value r2 1 = Some (Fin q2) -> sleepable q2 = true ->
     send (after_sleep q2 st2) = (Ok r3, st3) ->
     Httpx.status_code r3 = 429 ->
     retry_after_value r3 2 = Some f3 ->
     body_value r3 VNone = Some raw ->
     _request self method path body st =
       (Raise (ExApi (RateLimitError f3 raw)), st3) /\
     slept st3 = (slept st ++ [Fin q1; Fin q2])%list).
Proof.
  split; [|split].
  - intros self method url body attempt rest last_err st resp st1 s q
      Hsend Hst Hhdr Hflt Hq Hlt.
    apply (loop_429_retry self method url body attempt rest last_err st resp st1 q);
      auto.
    unfold retry_after_value. now rewrite Hhdr.
  - intros self method path body st r1 st1 r2 st2 v send H1 S1 Hhdr H2 S2 Hjson.
    split.
    + apply request_of_loop_return.
      change (range _MAX_RETRIES) with [0; 1; 2].
      rewrite (loop_429_retry _ _ _ _ 0 [1; 2] None st r1 st1 1 H1 S1);
        [| unfold retry_after_value; now rewrite Hhdr | reflexivity | reflexivity].
      apply (loop_success _ _ _ _ 1 [2] None _ r2 st2 v H2); [lia | exact Hjson].
    + rewrite (no_sleep_send_request _ _ _ _ _ _ _ H2). simpl.
      now rewrite (no_sleep_send_request _ _ _ _ _ _ _ H1).
  - intros self method path body st r1 st1 q1 r2 st2 q2 r3 st3 f3 raw send
      H1 S1 V1 Q1 H2 S2 V2 Q2 H3 S3 V3 Hraw.
    split.
    + apply request_of_loop_raise.
      change (range _MAX_RETRIES) with [0; 1; 2].
      rewrite (loop_429_retry _ _ _ _ 0 [1; 2] None st r1 st1 q1 H1 S1 V1 Q1);
        [|reflexivity].
      rewrite (loop_429_retry _ _ _ _ 1 [2] None _ r2 st2 q2 H2 S2 V2 Q2);
        [|reflexivity].
      apply (loop_429_final _ _ _ _ 2 [] None _ r3 st3 f3 raw H3 S3 V3);
        [discriminate | exact Hraw].
    + rewrite (no_sleep_send_request _ _ _ _ _ _ _ H3). simpl.
      rewrite (no_sleep_send_request _ _ _ _ _ _ _ H2). simpl.
      rewrite (no_sleep_send_request _ _ _ _ _ _ _ H1).
      now rewrite <- app_assoc.
Qed.

Lemma retry_on_429_witness :
  (exists st', _request api_key_client "POST" address_path None
                 (stub [Responds (resp_429 "1"); Responds resp_200])
               = (Ok (VDict []), st') /\ slept st' = [Fin 1]) /\
  (exists st', _request api_key_client "POST" address_path None
                 (stub [Responds (resp_429 "1"); Responds resp_429_plain;
                        Responds (resp_429 "7")])
               = (Raise (ExApi (RateLimitError (Fin 7) VNone)), st') /\
               slept st' = [Fin 1; Fin 2]).
Proof.
  destruct retry_on_429 as (_ & Hthen & Hthree). split.
  - eexists.
    eapply (Hthen api_key_client "POST" address_path None
              (stub [Responds (resp_429 "1"); Responds resp_200]));
      reflexivity.
  - eexists.
    eapply (Hthree api_key_client "POST" address_path None
              (stub [Responds (resp_429 "1"); Responds resp_429_plain;
                     Responds (resp_429 "7")])
              (resp_429 "1") _ 1%Q resp_429_plain _ 2%Q (resp_429 "7"));
      reflexivity.
Defined.

(** C1: three 429 responses in a row, the third with a plain-text body.  The
    first two are slept on and retried, as claimed; on the third the call
    fails inside the JSON decoder while building the [RateLimitError], which is
    therefore never raised. *)
Theorem rate_limit_exhaustion_text_body :
  exists st',
    _request api_key_client "POST" address_path None
      (stub [Responds (resp_429 "1"); Responds (resp_429 "1");
             Responds resp_429_text]) = (Raise ExJSONDecode, st') /\
    slept st' = [Fin 1; Fin 1] /\
    is_rate_limit_error ExJSONDecode = false.
Proof.
  eexists. repeat split; reflexivity.
Qed.

Lemma py_or_dict (d : pydict) : py_or (VDict d) (VDict []) = VDict d.
Proof. now destruct d. Qed.

(** No retry on 401 and 403.  Either status ends the call in the pass that
    received it, whatever attempts remain: the loop raises in the very state
    the response arrived in, so no sleep and no further request follow.  When
    the body is empty or a JSON object the exception is [AuthenticationError]
    with the body's ["message"] (or the default text) and the body as [raw]. *)
Theorem auth_failure_not_retried
    (self : IntelligentDataClient) (method url : string) (body : option pydict)
    (attempt : Z) (rest : list Z) (last_err : option exn)
    (st st1 : State) (resp : Response) :
  send_request self method url body st = (Ok resp, st1) ->
  Httpx.status_code resp = 401 \/ Httpx.status_code resp = 403 ->
  (exists e,
     request_loop self method url body (attempt :: rest) last_err st =
     (Raise e, st1)) /\
  slept st1 = slept st /\
  (forall d, body_value resp (VDict []) = Some (VDict d) ->
     request_loop self method url body (attempt :: rest) last_err st =
     (Raise (ExApi (mkApiError ClsAuthenticationError 401
                      (dict_get_default "message"
                         (VStr "Authentication failed") d)
                      (VDict d) None)), st1)).
Proof.
  intros Hsend Hst. split; [|split].
  - destruct (handle_auth_raises attempt last_err resp st1 Hst) as [e He].
    exists e. apply loop_raise.
    now rewrite (attempt_body_response _ _ _ _ _ _ _ _ _ Hsend).
  - exact (no_sleep_send_request _ _ _ _ _ _ _ Hsend).
  - intros d Hd. apply loop_raise.
    rewrite (attempt_body_response _ _ _ _ _ _ _ _ _ Hsend).
    rewrite (handle_auth_error attempt last_err resp st1 d Hst Hd).
    unfold AuthenticationError, init_api_error. now rewrite py_or_dict.
Qed.

Lemma auth_failure_not_retried_witness :
  exists st1,
    request_loop api_key_client "POST" "https://api.smartvmapi.com/api/risk/sanctions"
      None [0; 1; 2] None (stub [Responds resp_401_empty; Responds resp_200]) =
    (Raise (ExApi (mkApiError ClsAuthenticationError 401
                     (VStr "Authentication failed") (VDict []) None)), st1) /\
    slept st1 = [] /\ List.length (sent st1) = 1%nat.
Proof.
  pose (st := stub [Responds resp_401_empty; Responds resp_200]).
  pose (url := "https://api.smartvmapi.com/api/risk/sanctions").
  pose (st1 := snd (send_request api_key_client "POST" url None st)).
  assert (Hsend : send_request api_key_client "POST" url None st =
                  (Ok resp_401_empty, st1)) by reflexivity.
  destruct (auth_failure_not_retried api_key_client "POST" url None 0 [1; 2]
              None st st1 resp_401_empty Hsend (or_introl eq_refl))
    as (_ & Hs & Hd).
  exists st1. split; [exact (Hd [] eq_refl) | split; [exact Hs | reflexivity]].
Defined.

(** C2: a 403 whose body is an HTML page.  The call ends at once, without a
    sleep or a second request, but with the decoder's [JSONDecodeError] and
    not with an [AuthenticationError]. *)
Theorem auth_failure_html_body :
  exists st',
    _request api_key_client "POST" address_path None
      (stub [Responds (resp_html 403); Responds resp_200]) =
      (Raise ExJSONDecode, st') /\
    is_authentication_error ExJSONDecode = false /\
    slept st' = [] /\ List.length (sent st') = 1%nat.
Proof.
  eexists. repeat split; reflexivity.
Qed.

(** C10: the exception raised for a 403 is the one a 401 with the same
    headers and body would raise; whenever it is an [AuthenticationError] its
    [status_code] is 401, and it is one whenever the body is empty or a JSON
    object.  The status code of the error therefore does not tell 403 from
    401. *)
Theorem forbidden_reported_as_401
    (attempt : Z) (last_err : option exn) (resp : Response) (st : State) :
  Httpx.status_code resp = 403 ->
  handle_response attempt last_err resp st =
    handle_response attempt last_err (with_status 401 resp) st /\
  (forall e st',
     handle_response attempt last_err resp st = (Raise e, st') ->
     is_authentication_error e = true -> exn_status_code e = Some 401) /\
  (forall d, body_value resp (VDict []) = Some (VDict d) ->
     exists a,
       handle_response attempt last_err resp st = (Raise (ExApi a), st) /\
       cls a = ClsAuthenticationError /\ Exceptions.status_code a = 401).
Proof.
  intros Hst. split; [|split].
  - unfold handle_response. rewrite Hst. reflexivity.
  - intros e st' H Hauth.
    unfold handle_response in H. rewrite Hst in H.
    cbn [Z.eqb Pos.eqb Z.leb Z.compare Pos.compare Pos.compare_cont orb] in H.
    unfold json_if_content, resp_json, py_get, bind, ret, raise in H.
    destruct (negb (content resp =? "")%string).
    + destruct (json resp) as [[]|]; inversion H; subst;
        try discriminate Hauth; reflexivity.
    + inversion H; subst. reflexivity.
  - intros d Hd. eexists. split.
    + apply handle_auth_error; [now right | exact Hd].
    + split; reflexivity.
Qed.

Lemma forbidden_reported_as_401_witness :
  Httpx.status_code resp_403_empty = 403 /\
  handle_response 0 None resp_403_empty (stub []) =
    handle_response 0 None (with_status 401 resp_403_empty) (stub []) /\
  handle_response 0 None resp_403_empty (stub []) =
    (Raise (ExApi (mkApiError ClsAuthenticationError 401
                     (VStr "Authentication failed") (VDict []) None)), stub []).
Proof.
  destruct (forbidden_reported_as_401 0 None resp_403_empty (stub []) eq_refl)
    as (Hsame & _ & _).
  split; [reflexivity|]. split; [exact Hsame|].
  rewrite Hsame. reflexivity.
Defined.

Lemma loop_transport self method url body attempt rest last_err st e st1 :
  send_request self method url body st = (Raise e, st1) ->
  is_transport_error e = true ->
  sleepable (inject_Z (2 ^ attempt)) = true ->
  request_loop self method url body (attempt :: rest) last_err st =
  request_loop self method url body rest (Some e)
    (after_sleep (inject_Z (2 ^ attempt)) st1).
Proof.
  intros Hsend He Hs. cbn [request_loop]. unfold bind at 1.
  now rewrite (attempt_body_transport _ _ _ _ _ _ _ _ _ Hsend He Hs).
Qed.

(** C4: when each of the three attempts ends in a transport failure, the
    loop sleeps after every one of them, the last included -- 1, 2 and then 4
    seconds -- and only then raises the third failure.  The sleeps are three,
    not the two that lie between attempts. *)
Theorem transport_failures_sleep_three_times
    (self : IntelligentDataClient) (method path : string)
    (body : option pydict) (st st1 st2 st3 : State) (e1 e2 e3 : exn) :
  let send := send_request self method (_base_url self ++ path) body in
  send st = (Raise e1, st1) -> is_transport_error e1 = true ->
  send (after_sleep 1 st1) = (Raise e2, st2) -> is_transport_error e2 = true ->
  send (after_sleep 2 st2) = (Raise e3, st3) -> is_transport_error e3 = true ->
  _request self method path body st = (Raise e3, after_sleep 4 st3) /\
  slept (after_sleep 4 st3) = (slept st ++ [Fin 1; Fin 2; Fin 4])%list.
Proof.
  intros send H1 T1 H2 T2 H3 T3. split.
  - unfold _request. change (range _MAX_RETRIES) with [0; 1; 2].
    unfold bind at 1.
    rewrite (loop_transport _ _ _ _ 0 [1; 2] None st e1 st1 H1 T1 eq_refl).
    change (inject_Z (2 ^ 0)) with 1%Q.
    rewrite (loop_transport _ _ _ _ 1 [2] (Some e1) _ e2 st2 H2 T2 eq_refl).
    change (inject_Z (2 ^ 1)) with 2%Q.
    rewrite (loop_transport _ _ _ _ 2 [] (Some e2) _ e3 st3 H3 T3 eq_refl).
    reflexivity.
  - simpl.
    rewrite (no_sleep_send_request _ _ _ _ _ _ _ H3). simpl.
    rewrite (no_sleep_send_request _ _ _ _ _ _ _ H2). simpl.
    rewrite (no_sleep_send_request _ _ _ _ _ _ _ H1).
    now rewrite <- !app_assoc.
Qed.

Lemma transport_failures_sleep_three_times_witness :
  exists st',
    _request api_key_client "POST" address_path None
      (stub [TransportFails "ConnectTimeout"; TransportFails "ConnectError";
             TransportFails "ReadTimeout"]) =
    (Raise (ExTransport "ReadTimeout"), st') /\
    slept st' = [Fin 1; Fin 2; Fin 4].
Proof.
  eexists.
  eapply (transport_failures_sleep_three_times api_key_client "POST"
            address_path None
            (stub [TransportFails "ConnectTimeout"; TransportFails "ConnectError";
                   TransportFails "ReadTimeout"]));
    reflexivity.
Defined.

(** C6: on a 429 without a [Retry-After] header the delay is [2 ** attempt];
    with a header that [float] cannot read the pass raises [ValueError] on the
    spot -- there is no fallback and the call fails. *)
Theorem unreadable_retry_after_raises
    (attempt : Z) (last_err : option exn) (resp : Response) (st : State) :
  Httpx.status_code resp = 429 ->
  (headers_get "Retry-After" (headers resp) = None ->
   retry_after_value resp attempt = Some (of_Z (2 ^ attempt))) /\
  (forall s,
     headers_get "Retry-After" (headers resp) = Some s ->
     float_of_str s = None ->
     handle_response attempt last_err resp st = (Raise ExValueError, st)).
Proof.
  intros Hst. split.
  - intros Hh. unfold retry_after_value. now rewrite Hh.
  - intros s Hh Hf. unfold handle_response, read_retry_after, retry_after_value.
    rewrite Hst, Hh, Hf. reflexivity.
Qed.

Lemma unreadable_retry_after_raises_witness :
  float_of_str http_date = None /\
  exists st',
    _request api_key_client "POST" address_path None
      (stub [Responds (resp_429 http_date); Responds resp_200]) =
    (Raise ExValueError, st') /\
    slept st' = [] /\ List.length (net st') = 1%nat.
Proof.
  split; [reflexivity|].
  pose (st := stub [Responds (resp_429 http_date); Responds resp_200]).
  pose (url := _base_url api_key_client ++ address_path).
  pose (st1 := snd (send_request api_key_client "POST" url None st)).
  assert (Hsend : send_request api_key_client "POST" url None st =
                  (Ok (resp_429 http_date), st1)) by reflexivity.
  destruct (unreadable_retry_after_raises 0 None (resp_429 http_date) st1 eq_refl)
    as (_ & Hbad).
  exists st1. split; [|split; reflexivity].
  apply request_of_loop_raise. apply loop_raise.
  change (attempt_body api_key_client "POST" url None 0 None st =
          (Raise ExValueError, st1)).
  rewrite (attempt_body_response _ _ _ _ 0 None st _ st1 Hsend).
  exact (Hbad http_date eq_refl eq_refl).
Defined.

(** C7: an error response with a non-empty body that is not JSON makes the
    error path itself fail: for a 4xx other than 429, and for a 429 on the last
    attempt, the pass raises the decoder's [JSONDecodeError] and no
    [ApiError] of any class is built.  Only the 5xx branch, which reads the
    body as text, survives such a body. *)
Theorem undecodable_error_body_raises_decode_error
    (attempt : Z) (last_err : option exn) (resp : Response) (st : State) :
  content resp <> "" -> json resp = None ->
  (400 <= Httpx.status_code resp < 500 -> Httpx.status_code resp <> 429 ->
   handle_response attempt last_err resp st = (Raise ExJSONDecode, st)) /\
  (Httpx.status_code resp = 429 -> _MAX_RETRIES - 1 <= attempt ->
   forall f, retry_after_value resp attempt = Some f ->
   handle_response attempt last_err resp st = (Raise ExJSONDecode, st)) /\
  (500 <= Httpx.status_code resp -> _MAX_RETRIES - 1 <= attempt ->
   handle_response attempt last_err resp st =
   (Raise (ExApi (ApiError (Httpx.status_code resp) (VStr (text resp)) VNone)),
    st)).
Proof.
  intros Hc Hj. apply String.eqb_neq in Hc.
  assert (Hjson : forall dflt, json_if_content resp dflt st = (Raise ExJSONDecode, st)).
  { intros dflt. unfold json_if_content, resp_json. now rewrite Hc, Hj. }
  split; [|split].
  - intros Hr Hne. unfold handle_response.
    replace (Httpx.status_code resp =? 429) with false by (symmetry; lia).
    replace (500 <=? Httpx.status_code resp) with false by (symmetry; lia).
    replace (400 <=? Httpx.status_code resp) with true by (symmetry; lia).
    destruct ((Httpx.status_code resp =? 401) || (Httpx.status_code resp =? 403));
      unfold bind; now rewrite Hjson.
  - intros Hs Hge f Hf. unfold handle_response, read_retry_after, bind, ret.
    rewrite Hs, Hf. cbn [Z.eqb Pos.eqb].
    apply Z.ltb_ge in Hge. rewrite Hge. now rewrite Hjson.
  - intros Hs Hge. unfold handle_response.
    replace (Httpx.status_code resp =? 429) with false by (symmetry; lia).
    replace (500 <=? Httpx.status_code resp) with true by (symmetry; lia).
    apply Z.ltb_ge in Hge. now rewrite Hge.
Qed.

Lemma undecodable_error_body_raises_decode_error_witness :
  exists st',
    _request api_key_client "POST" address_path None
      (stub [Responds (resp_html 403)]) = (Raise ExJSONDecode, st') /\
    is_api_error ExJSONDecode = false.
Proof.
  pose (st := stub [Responds (resp_html 403)]).
  pose (url := _base_url api_key_client ++ address_path).
  pose (st1 := snd (send_request api_key_client "POST" url None st)).
  assert (Hsend : send_request api_key_client "POST" url None st =
                  (Ok (resp_html 403), st1)) by reflexivity.
  destruct (undecodable_error_body_raises_decode_error 0 None (resp_html 403) st1)
    as (H4xx & _ & _); [discriminate | reflexivity |].
  exists st1. split; [|reflexivity].
  apply request_of_loop_raise. apply loop_raise.
  change (attempt_body api_key_client "POST" url None 0 None st =
          (Raise ExJSONDecode, st1)).
  rewrite (attempt_body_response _ _ _ _ 0 None st _ st1 Hsend).
  apply H4xx; [split; [discriminate | reflexivity] | discriminate].
Defined.

(** *** What the loop can raise, and how it can run out *)

Lemma raises_only_bind {A B} (P : exn -> Prop) (m : M A) (k : A -> M B) :
  raises_only P m -> (forall a, raises_only P (k a)) -> raises_only P (bind m k).
Proof.
  intros Hm Hk st e st' H. unfold bind in H.
  destruct (m st) as [[a|e0] st0] eqn:E.
  - exact (Hk a _ _ _ H).
  - inversion H; subst. exact (Hm _ _ _ E).
Qed.

Lemma raises_only_ret {A} (P : exn -> Prop) (a : A) : raises_only P (ret a).
Proof. intros st e st' H. inversion H. Qed.

Lemma raises_only_raise {A} (P : exn -> Prop) (e : exn) :
  P e -> raises_only P (@raise A e).
Proof. intros He st e' st' H. now inversion H; subst. Qed.

Lemma foreign_not_fallback (e : exn) : foreign e -> not_fallback e.
Proof. intros H E. subst. discriminate H. Qed.

Lemma raises_only_weaken {A} (P Q : exn -> Prop) (m : M A) :
  (forall e, P e -> Q e) -> raises_only P m -> raises_only Q m.
Proof. intros HPQ Hm st e st' H. exact (HPQ _ (Hm _ _ _ H)). Qed.

Lemma foreign_http_send (c : Call) : raises_only foreign (http_send c).
Proof.
  intros st e st' H. unfold http_send in H.
  destruct (net st) as [|x rest]; [now inversion H|].
  destruct (outcome x); now inversion H.
Qed.

Lemma foreign_time_sleep (d : pyfloat) : raises_only foreign (time_sleep d).
Proof.
  intros st e st' H. unfold time_sleep in H.
  destruct d as [q| | |]; try now inversion H.
  destruct (Qltb PYTIME_MAX (Qabs q)); [now inversion H|].
  destruct (Qltb q 0); now inversion H.
Qed.

Lemma foreign_raise_for_status (r : Response) :
  raises_only foreign (raise_for_status r).
Proof.
  unfold raise_for_status. destruct (is_success r).
  - apply raises_only_ret.
  - now apply raises_only_raise.
Qed.

Lemma foreign_resp_json (r : Response) : raises_only foreign (resp_json r).
Proof.
  unfold resp_json. destruct (json r).
  - apply raises_only_ret.
  - now apply raises_only_raise.
Qed.

Lemma foreign_json_if_content (r : Response) (dflt : pyval) :
  raises_only foreign (json_if_content r dflt).
Proof.
  unfold json_if_content. destruct (negb (content r =? "")%string).
  - apply foreign_resp_json.
  - apply raises_only_ret.
Qed.

Lemma foreign_py_getitem (v : pyval) (k : string) :
  raises_only foreign (py_getitem v k).
Proof.
  unfold py_getitem. destruct v; try now apply raises_only_raise.
  destruct (dict_get k d); [apply raises_only_ret | now apply raises_only_raise].
Qed.

Lemma foreign_py_get (v : pyval) (k : string) (dflt : pyval) :
  raises_only foreign (py_get v k dflt).
Proof.
  unfold py_get.
  destruct v; try (now apply raises_only_raise); apply raises_only_ret.
Qed.

Lemma foreign_float_plus (t : pyfloat) (v : pyval) :
  raises_only foreign (float_plus t v).
Proof.
  unfold float_plus.
  destruct v; try (now apply raises_only_raise); apply raises_only_ret.
Qed.

Lemma foreign_read_retry_after (r : Response) (attempt : Z) :
  raises_only foreign (read_retry_after r attempt).
Proof.
  unfold read_retry_after. destruct (retry_after_value r attempt).
  - apply raises_only_ret.
  - now apply raises_only_raise.
Qed.

Lemma raises_only_get_cache (P : exn -> Prop) : raises_only P get_cache.
Proof. intros st e st' H. inversion H. Qed.

Lemma raises_only_time_time (P : exn -> Prop) : raises_only P time_time.
Proof. intros st e st' H. inversion H. Qed.

Lemma raises_only_set_cache (P : exn -> Prop) (tc : _TokenCache) :
  raises_only P (set_cache tc).
Proof. intros st e st' H. inversion H. Qed.

#[local] Hint Resolve raises_only_ret raises_only_get_cache
  raises_only_time_time raises_only_set_cache foreign_http_send
  foreign_time_sleep foreign_raise_for_status foreign_resp_json
  foreign_json_if_content foreign_py_getitem foreign_py_get foreign_float_plus
  foreign_read_retry_after : frame.

Ltac raise_steps :=
  repeat (apply raises_only_bind; [auto with frame | intros ?]);
  auto with frame.

Lemma foreign_get_token (tm : OAuth2TokenManager) :
  raises_only foreign (get_token tm).
Proof.
  unfold get_token.
  apply raises_only_bind; [auto with frame | intros c].
  apply raises_only_bind.
  - destruct c; raise_steps.
  - intros fresh. destruct c as [tc|]; [destruct fresh|]; raise_steps.
Qed.

Lemma foreign_send_request self method url body :
  raises_only foreign (send_request self method url body).
Proof.
  unfold send_request, _headers.
  apply raises_only_bind; [|auto with frame].
  destruct (str_truthy (_api_key self)); [auto with frame|].
  destruct (_oauth self); [|auto with frame].
  apply raises_only_bind; [apply foreign_get_token | auto with frame].
Qed.

(** The classification never raises the error of the line after the loop:
    its [ApiError]s carry 401, 429 or the response's status, 400 or more. *)
Lemma handle_response_not_fallback attempt last_err resp :
  raises_only not_fallback (handle_response attempt last_err resp).
Proof.
  assert (W : forall A (m : M A), raises_only foreign m ->
                raises_only not_fallback m).
  { intros A m. apply raises_only_weaken, foreign_not_fallback. }
  unfold handle_response.
  destruct (Httpx.status_code resp =? 429) eqn:E429.
  { apply raises_only_bind; [apply W; auto with frame | intros ra].
    destruct (attempt <? _MAX_RETRIES - 1).
    - apply W. raise_steps.
    - apply raises_only_bind; [apply W; auto with frame | intros raw].
      apply raises_only_raise. intros E. discriminate E. }
  destruct (500 <=? Httpx.status_code resp) eqn:E500.
  { assert (Hne : not_fallback
                    (ExApi (ApiError (Httpx.status_code resp)
                              (VStr (text resp)) VNone))).
    { intros E. inversion E as [Hs]. rewrite Hs in E500. discriminate E500. }
    destruct (attempt <? _MAX_RETRIES - 1).
    - apply W. raise_steps.
    - now apply raises_only_raise. }
  destruct ((Httpx.status_code resp =? 401) || (Httpx.status_code resp =? 403)).
  { apply raises_only_bind; [apply W; auto with frame | intros data].
    apply raises_only_bind; [apply W; auto with frame | intros msg].
    apply raises_only_raise. intros E. discriminate E. }
  destruct (400 <=? Httpx.status_code resp) eqn:E400.
  { apply raises_only_bind; [apply W; auto with frame | intros data].
    apply raises_only_bind; [apply W; auto with frame | intros msg].
    apply raises_only_raise. intros E. inversion E as [Hs].
    rewrite Hs in E400. discriminate E400. }
  apply W. raise_steps.
Qed.

Lemma returns_only_bind {A B} (Q : B -> Prop) (m : M A) (k : A -> M B) :
  (forall a, returns_only Q (k a)) -> returns_only Q (bind m k).
Proof.
  intros Hk st b st' H. unfold bind in H.
  destruct (m st) as [[a|e0] st0] eqn:E; [exact (Hk a _ _ _ H) | inversion H].
Qed.

Lemma returns_only_ret {A} (Q : A -> Prop) (a : A) :
  Q a -> returns_only Q (ret a).
Proof. intros Ha st a' st' H. now inversion H; subst. Qed.

Lemma returns_only_raise {A} (Q : A -> Prop) (e : exn) :
  returns_only Q (@raise A e).
Proof. intros st a st' H. inversion H. Qed.

Lemma handle_response_continue attempt last_err resp :
  returns_only (continue_has_attempts_left attempt)
    (handle_response attempt last_err resp).
Proof.
  unfold handle_response.
  destruct (Httpx.status_code resp =? 429).
  { apply returns_only_bind; intros ra.
    destruct (attempt <? _MAX_RETRIES - 1) eqn:E.
    - apply returns_only_bind; intros _. now apply returns_only_ret.
    - apply returns_only_bind; intros raw. apply returns_only_raise. }
  destruct (500 <=? Httpx.status_code resp).
  { destruct (attempt <? _MAX_RETRIES - 1) eqn:E.
    - apply returns_only_bind; intros _. now apply returns_only_ret.
    - apply returns_only_raise. }
  destruct ((Httpx.status_code resp =? 401) || (Httpx.status_code resp =? 403)).
  { do 2 (apply returns_only_bind; intros ?). apply returns_only_raise. }
  destruct (400 <=? Httpx.status_code resp).
  { do 2 (apply returns_only_bind; intros ?). apply returns_only_raise. }
  apply returns_only_bind; intros v. now apply returns_only_ret.
Qed.

(** On the last attempt only a transport failure lets the pass [continue],
    and it leaves that failure in [last_err]. *)
Lemma attempt_body_continue_last self method url body attempt last_err st
    last_err' st' :
  attempt_body self method url body attempt last_err st =
    (Ok (Continue last_err'), st') ->
  (attempt <? _MAX_RETRIES - 1) = false ->
  exists e, last_err' = Some e /\ is_transport_error e = true.
Proof.
  unfold attempt_body, bind at 1, try_transport. intros H Hlast.
  destruct (send_request self method url body st) as [[resp|e] st0].
  - apply (handle_response_continue attempt last_err resp) in H.
    unfold continue_has_attempts_left in H. rewrite Hlast in H. discriminate H.
  - destruct (is_transport_error e) eqn:T; [|inversion H].
    unfold bind, ret in H.
    destruct (time_sleep (of_Z (2 ^ attempt)) st0) as [[[]|e'] st1];
      inversion H; subst. eauto.
Qed.

Lemma attempt_body_not_fallback self method url body attempt last_err :
  raises_only not_fallback (attempt_body self method url body attempt last_err).
Proof.
  assert (W : forall A (m : M A), raises_only foreign m ->
                raises_only not_fallback m).
  { intros A m. apply raises_only_weaken, foreign_not_fallback. }
  unfold attempt_body. apply raises_only_bind.
  - apply W. intros st e st' H. unfold try_transport in H.
    destruct (send_request self method url body st) as [[resp|e0] st0] eqn:E;
      [inversion H|].
    destruct (is_transport_error e0); inversion H; subst.
    exact (foreign_send_request _ _ _ _ _ _ _ E).
  - intros [exc|resp].
    + apply W. raise_steps.
    + apply handle_response_not_fallback.
Qed.

Lemma request_loop_not_fallback self method url body attempts :
  forall last_err,
    raises_only not_fallback (request_loop self method url body attempts last_err).
Proof.
  induction attempts as [|attempt rest IH]; intros last_err; cbn [request_loop].
  - intros st e st' H. inversion H.
  - apply raises_only_bind; [apply attempt_body_not_fallback|].
    intros [le|v]; [apply IH | intros st e st' H; inversion H].
Qed.

(** A loop whose last attempt is the final one runs out only with a
    transport failure pending. *)
Lemma request_loop_exhausted self method url body attempts final :
  (final <? _MAX_RETRIES - 1) = false ->
  forall last_err st last_err' st',
    request_loop self method url body (attempts ++ [final])%list last_err st =
      (Ok (Exhausted last_err'), st') ->
    exists e, last_err' = Some e /\ is_transport_error e = true.
Proof.
  intros Hfinal.
  induction attempts as [|attempt rest IH]; intros last_err st last_err' st' H;
    cbn [app request_loop] in H; unfold bind at 1 in H.
  - destruct (attempt_body self method url body final last_err st)
      as [[[le|v]|e] st0] eqn:E; inversion H; subst.
    exact (attempt_body_continue_last _ _ _ _ _ _ _ _ _ E Hfinal).
  - destruct (attempt_body self method url body attempt last_err st)
      as [[[le|v]|e] st0] eqn:E; try (inversion H; fail).
    exact (IH _ _ _ _ H).
Qed.

(** C9: when the loop of [_request] runs through its three attempts, the
    pending error is set -- it is the transport failure of the third attempt
    -- and that error is what [_request] raises; the branch building
    [ApiError(0, "Request failed after retries")] is never taken, and no call
    ever ends with that error. *)
Theorem fallback_error_unreachable
    (self : IntelligentDataClient) (method path : string)
    (body : option pydict) (st : State) :
  (forall last_err st',
     request_loop self method (_base_url self ++ path) body
       (range _MAX_RETRIES) None st = (Ok (Exhausted last_err), st') ->
     exists e,
       last_err = Some e /\ is_transport_error e = true /\
       _request self method path body st = (Raise e, st')) /\
  fst (_request self method path body st) <> Raise fallback_error.
Proof.
  assert (Hex : forall last_err st',
            request_loop self method (_base_url self ++ path) body
              (range _MAX_RETRIES) None st = (Ok (Exhausted last_err), st') ->
            exists e, last_err = Some e /\ is_transport_error e = true).
  { intros last_err st' H.
    apply (request_loop_exhausted self method _ body [0; 1] 2 eq_refl
             None st last_err st' H). }
  split.
  - intros last_err st' H. destruct (Hex _ _ H) as (e & -> & He).
    exists e. repeat split; auto. unfold _request, bind. now rewrite H.
  - unfold _request, bind.
    destruct (request_loop self method (_base_url self ++ path) body
                (range _MAX_RETRIES) None st) as [[[v|le]|e] st'] eqn:E; simpl.
    + discriminate.
    + destruct (Hex _ _ eq_refl) as (e & -> & He). simpl.
      intros Hf. inversion Hf; subst. discriminate He.
    + intros Hf. inversion Hf; subst.
      exact (request_loop_not_fallback _ _ _ _ _ _ _ _ _ E eq_refl).
Qed.

Lemma fallback_error_unreachable_witness :
  let st := stub [TransportFails "ConnectError"; TransportFails "ConnectError";
                  TransportFails "ReadTimeout"] in
  exists st',
    request_loop api_key_client "POST" (_base_url api_key_client ++ address_path)
      None (range _MAX_RETRIES) None st =
      (Ok (Exhausted (Some (ExTransport "ReadTimeout"))), st') /\
    _request api_key_client "POST" address_path None st =
      (Raise (ExTransport "ReadTimeout"), st').
Proof.
  intros st.
  pose (st' := snd (request_loop api_key_client "POST"
                      (_base_url api_key_client ++ address_path) None
                      (range _MAX_RETRIES) None st)).
  assert (Hloop : request_loop api_key_client "POST"
                    (_base_url api_key_client ++ address_path) None
                    (range _MAX_RETRIES) None st =
                  (Ok (Exhausted (Some (ExTransport "ReadTimeout"))), st'))
    by reflexivity.
  destruct (fallback_error_unreachable api_key_client "POST" address_path None st)
    as (Hex & _).
  destruct (Hex _ _ Hloop) as (e & He & _ & Hreq).
  injection He as <-. exists st'. split; [exact Hloop | exact Hreq].
Defined.

(** ** The token manager *)

Section Token.

Variable tm : OAuth2TokenManager.

Let post : Call := token_post tm.

Let refresh : M pyval := get_token_tail tm.

Lemma get_token_fresh st tc :
  cache st = Some tc -> token_is_fresh st = true ->
  get_token tm st = (Ok (access_token tc), st).
Proof.
  unfold token_is_fresh, get_token, bind, get_cache, time_time, ret.
  intros -> Hf. now rewrite Hf.
Qed.

Lemma get_token_stale st :
  token_is_fresh st = false -> get_token tm st = refresh st.
Proof.
  unfold token_is_fresh, get_token, refresh, get_token_tail, post, token_post.
  unfold bind at 1 2. unfold get_cache, time_time, ret.
  destruct (cache st) as [tc|]; [|reflexivity].
  unfold bind at 1. now intros ->.
Qed.

(** A refresh issues exactly one request, the POST to the token URL. *)
Lemma refresh_sends st :
  exists r st',
    refresh st = (r, st') /\
    sent st' = (sent st ++ [post])%list /\ net st' = tl (net st).
Proof.
  destruct (refresh st) as [r st'] eqn:E. exists r, st'. split; [reflexivity|].
  unfold refresh, get_token_tail in E. fold post in E. unfold bind at 1 in E.
  assert (Hsend : forall r0 st0, http_send post st = (r0, st0) ->
            sent st0 = (sent st ++ [post])%list /\ net st0 = tl (net st)).
  { intros r0 st0 H. unfold http_send, after_exchange in H.
    destruct (net st) as [|x rest]; [now inversion H|].
    destruct (outcome x); now inversion H. }
  destruct (http_send post st) as [[resp|e] st0] eqn:S.
  - destruct (Hsend _ _ eq_refl) as [Hs Hn].
    assert (T : traffic st' = traffic st0).
    { revert E. generalize st0 r st'. change (preserves traffic
        (raise_for_status resp ;;;
         data <- resp_json resp ;;
         tok <- py_getitem data "access_token" ;;
         t' <- time_time ;;
         ttl <- py_get data "expires_in" (VInt 3600) ;;
         exp <- float_plus t' ttl ;;
         set_cache (mkTokenCache tok exp) ;;; ret tok)).
      frame_steps. }
    unfold traffic in T. injection T as -> ->. now split.
  - inversion E; subst. exact (Hsend _ _ eq_refl).
Qed.

(** A response outside 2xx makes [raise_for_status] end the refresh. *)
Lemma refresh_rejected st x rest resp :
  net st = x :: rest -> outcome x = Responds resp -> is_success resp = false ->
  refresh st =
  (Raise (ExHTTPStatus (Httpx.status_code resp)), after_exchange post x rest st).
Proof.
  intros Hn Ho Hs. unfold refresh, get_token_tail. fold post.
  unfold bind at 1, http_send. rewrite Hn, Ho.
  unfold bind, raise_for_status, raise. now rewrite Hs.
Qed.

Lemma fresh_iff_before_margin (t E : Q) :
  flt (Fin t) (fsub (Fin E) (of_Z 30)) = true <-> (t < E - 30)%Q.
Proof.
  unfold fsub, fadd, fneg, of_Z, flt, Qltb.
  rewrite negb_true_iff, <- not_true_iff_false, Qle_bool_iff.
  change (inject_Z 30) with 30%Q. split.
  - intros H. apply Qnot_le_lt in H. lra.
  - intros H Hle. lra.
Qed.

(** C3: with a cache entry and [now < expires_at - 30], [get_token] returns
    the cached token and leaves the whole state (cache, transport, clock) as
    it was; with no entry, or with [now >= expires_at - 30], it posts to the
    token URL.  An entry expiring in 60 seconds is served from the cache, one
    expiring in 20 seconds is refreshed. *)
Theorem get_token_cache_rule (st : State) :
  (forall tc,
     cache st = Some tc ->
     flt (Fin (now st)) (fsub (expires_at tc) (of_Z 30)) = true ->
     get_token tm st = (Ok (access_token tc), st)) /\
  (cache st = None \/
   (exists tc, cache st = Some tc /\
               flt (Fin (now st)) (fsub (expires_at tc) (of_Z 30)) = false) ->
   exists r st',
     get_token tm st = (r, st') /\
     sent st' =
       (sent st ++
        [TokenPost (_token_url tm) (_client_id tm) (_client_secret tm)])%list /\
     net st' = tl (net st)) /\
  (forall E,
     flt (Fin (now st)) (fsub (Fin E) (of_Z 30)) = true <->
     (now st < E - 30)%Q) /\
  (forall tc,
     cache st = Some tc -> expires_at tc = Fin (now st + 60) ->
     get_token tm st = (Ok (access_token tc), st)) /\
  (forall tc,
     cache st = Some tc -> expires_at tc = Fin (now st + 20) ->
     exists r st',
       get_token tm st = (r, st') /\
       sent st' =
         (sent st ++
          [TokenPost (_token_url tm) (_client_id tm) (_client_secret tm)])%list).
Proof.
  assert (Hhit : forall tc, cache st = Some tc ->
            flt (Fin (now st)) (fsub (expires_at tc) (of_Z 30)) = true ->
            get_token tm st = (Ok (access_token tc), st)).
  { intros tc Hc Hf. apply get_token_fresh; auto.
    unfold token_is_fresh. now rewrite Hc. }
  assert (Hmiss : token_is_fresh st = false ->
            exists r st', get_token tm st = (r, st') /\
              sent st' = (sent st ++ [post])%list /\ net st' = tl (net st)).
  { intros Hf. rewrite (get_token_stale st Hf). apply refresh_sends. }
  split; [exact Hhit|]. split; [|split; [|split]].
  - intros [Hc|(tc & Hc & Hf)]; apply Hmiss; unfold token_is_fresh;
      now rewrite Hc.
  - intros E. apply fresh_iff_before_margin.
  - intros tc Hc HE. apply Hhit; auto. rewrite HE.
    apply fresh_iff_before_margin. lra.
  - intros tc Hc HE.
    destruct Hmiss as (r & st' & H & Hs & _).
    + unfold token_is_fresh. rewrite Hc, HE.
      apply not_true_iff_false. rewrite fresh_iff_before_margin.
      intros Hlt. lra.
    + eauto.
Qed.

(** C5: a response outside 2xx from the token endpoint makes [get_token]
    raise at once the [HTTPStatusError] of [raise_for_status] -- which is not
    an [AuthenticationError] -- after that single request and with the cache
    untouched; the executor does not catch it either, so the call ends there
    without a retry. *)
Theorem token_rejection_propagates
    (st : State) (x : Exchange) (rest : list Exchange) (resp : Response) :
  token_is_fresh st = false ->
  net st = x :: rest -> outcome x = Responds resp -> is_success resp = false ->
  let err := ExHTTPStatus (Httpx.status_code resp) in
  let st' := after_exchange
               (TokenPost (_token_url tm) (_client_id tm) (_client_secret tm))
               x rest st in
  get_token tm st = (Raise err, st') /\
  is_authentication_error err = false /\
  cache st' = cache st /\ slept st' = slept st /\
  (forall self method url body attempt rest' last_err,
     str_truthy (_api_key self) = false -> _oauth self = Some tm ->
     request_loop self method url body (attempt :: rest') last_err st =
     (Raise err, st')).
Proof.
  intros Hf Hn Ho Hs err st'.
  assert (Hget : get_token tm st = (Raise err, st')).
  { rewrite (get_token_stale st Hf). now apply refresh_rejected. }
  split; [exact Hget|]. repeat split.
  intros self method url body attempt rest' last_err Hkey Hoauth.
  apply loop_raise.
  unfold attempt_body, bind at 1, try_transport, send_request, _headers.
  rewrite Hkey, Hoauth. unfold bind. now rewrite Hget.
Qed.

End Token.

Lemma get_token_cache_rule_witness :
  get_token token_manager (cached 1060) = (Ok (VStr "cached-token"), cached 1060) /\
  exists r st',
    get_token token_manager (cached 1020) = (r, st') /\
    sent st' = [TokenPost "https://api.smartvmapi.com/api/oauth/token" "id" "secret"].
Proof.
  split.
  - destruct (get_token_cache_rule token_manager (cached 1060))
      as (_ & _ & _ & H60 & _).
    exact (H60 _ eq_refl eq_refl).
  - destruct (get_token_cache_rule token_manager (cached 1020))
      as (_ & _ & _ & _ & H20).
    exact (H20 _ eq_refl eq_refl).
Defined.

(** C5, as stated, fails: the 401 of the token endpoint surfaces as an
    [HTTPStatusError], which is not an [AuthenticationError]. *)
Lemma token_rejection_is_not_auth_error :
  is_success resp_401_empty = false /\
  exists e st',
    get_token token_manager (stub [Responds resp_401_empty]) = (Raise e, st') /\
    is_authentication_error e = false.
Proof.
  split; [reflexivity|]. do 2 eexists. split; reflexivity.
Qed.

Lemma token_rejection_propagates_witness :
  let st := stub [Responds resp_401_empty; Responds resp_200] in
  let st' := after_exchange
               (TokenPost "https://api.smartvmapi.com/api/oauth/token" "id" "secret")
               (mkExchange 0 (Responds resp_401_empty))
               [mkExchange 0 (Responds resp_200)] st in
  get_token token_manager st = (Raise (ExHTTPStatus 401), st') /\
  _request oauth_client "POST" address_path None st =
    (Raise (ExHTTPStatus 401), st') /\
  List.length (sent st') = 1%nat /\ cache st' = None.
Proof.
  intros st st'.
  destruct (token_rejection_propagates token_manager st
              (mkExchange 0 (Responds resp_401_empty))
              [mkExchange 0 (Responds resp_200)] resp_401_empty
              eq_refl eq_refl eq_refl eq_refl)
    as (Hget & _ & _ & _ & Hloop).
  split; [exact Hget|]. split; [|split; reflexivity].
  apply request_of_loop_raise.
  exact (Hloop oauth_client "POST" _ None 0 [1; 2] None eq_refl eq_refl).
Defined.

(** * Further properties of the code *)

(** ** Names on the wire *)

Lemma has_underscore_app (a b : string) :
  has_underscore (a ++ b) = has_underscore a || has_underscore b.
Proof.
  induction a as [|c a IH]; simpl; [reflexivity|].
  now rewrite IH, orb_assoc.
Qed.

Lemma upper_char_not_underscore (c : ascii) :
  Ascii.eqb c "_" = false -> Ascii.eqb (upper_char c) "_" = false.
Proof.
  destruct c as [[] [] [] [] [] [] [] []]; intros H; try reflexivity;
    discriminate H.
Qed.

Lemma lower_char_not_underscore (c : ascii) :
  Ascii.eqb c "_" = false -> Ascii.eqb (lower_char c) "_" = false.
Proof.
  destruct c as [[] [] [] [] [] [] [] []]; intros H; try reflexivity;
    discriminate H.
Qed.

Lemma lower_no_underscore (s : string) :
  has_underscore s = false -> has_underscore (lower s) = false.
Proof.
  induction s as [|c s IH]; simpl; [reflexivity|]. intros H.
  apply orb_false_elim in H. destruct H as [Hc Hs].
  now rewrite (lower_char_not_underscore c Hc), (IH Hs).
Qed.

Lemma capitalize_no_underscore (s : string) :
  has_underscore s = false -> has_underscore (capitalize s) = false.
Proof.
  destruct s as [|c s]; simpl; [reflexivity|]. intros H.
  apply orb_false_elim in H. destruct H as [Hc Hs].
  now rewrite (upper_char_not_underscore c Hc), (lower_no_underscore s Hs).
Qed.

Lemma split_underscore_parts (s : string) :
  Forall (fun p => has_underscore p = false) (split_underscore s).
Proof.
  induction s as [|c s IH]; simpl.
  - repeat constructor.
  - destruct (Ascii.eqb c "_") eqn:E.
    + constructor; [reflexivity | exact IH].
    + destruct (split_underscore s) as [|p ps].
      * repeat constructor. simpl. now rewrite E.
      * inversion IH; subst. constructor; [|assumption].
        simpl. now rewrite E.
Qed.

Lemma split_underscore_plain (s : string) :
  has_underscore s = false -> split_underscore s = [s].
Proof.
  induction s as [|c s IH]; simpl; [reflexivity|]. intros H.
  apply orb_false_elim in H. destruct H as [Hc Hs].
  now rewrite Hc, (IH Hs).
Qed.

Lemma join_no_underscore (l : list string) :
  Forall (fun p => has_underscore p = false) l ->
  has_underscore (join l) = false.
Proof.
  induction 1 as [|p l Hp _ IH]; simpl; [reflexivity|].
  now rewrite has_underscore_app, Hp, IH.
Qed.

Lemma append_empty_r (s : string) : (s ++ "")%string = s.
Proof. induction s as [|c s IH]; simpl; congruence. Qed.

(** X1: [_to_camel] removes every underscore, leaves a name without
    underscores as it is, and so changes nothing when applied twice. *)
Theorem to_camel_no_underscore (name : string) :
  has_underscore (_to_camel name) = false /\
  (has_underscore name = false -> _to_camel name = name) /\
  _to_camel (_to_camel name) = _to_camel name.
Proof.
  assert (H1 : has_underscore (_to_camel name) = false).
  { unfold _to_camel. pose proof (split_underscore_parts name) as F.
    destruct (split_underscore name) as [|p0 ps]; [reflexivity|].
    inversion F as [|? ? Hp0 Hps]; subst.
    rewrite has_underscore_app, Hp0. simpl.
    apply join_no_underscore. clear -Hps.
    induction Hps as [|p l Hp _ IH]; simpl; constructor; auto.
    now apply capitalize_no_underscore. }
  assert (H2 : forall s, has_underscore s = false -> _to_camel s = s).
  { intros s Hs. unfold _to_camel. rewrite (split_underscore_plain s Hs).
    simpl. apply append_empty_r. }
  split; [exact H1|]. split; [apply H2 | now apply H2].
Qed.

Lemma to_camel_no_underscore_witness :
  has_underscore "iban" = false /\ _to_camel "iban" = "iban" /\
  _to_camel "registration_number" = "registrationNumber".
Proof.
  destruct (to_camel_no_underscore "iban") as (_ & Hplain & _).
  split; [reflexivity|]. split; [exact (Hplain eq_refl) | reflexivity].
Defined.

(** ** The serialized body, in full *)

Lemma dict_set_fresh (k : string) (v : pyval) (d : pydict) :
  dict_get k d = None -> dict_set k v d = (d ++ [(k, v)])%list.
Proof.
  induction d as [|[k0 v0] d IH]; simpl; [reflexivity|].
  destruct (String.eqb k k0); [discriminate|].
  intros H. now rewrite (IH H).
Qed.

Lemma camel_items_ordered (raw : pydict) :
  NoDup (map _to_camel (keys raw)) ->
  camel_items raw =
  map (fun kv => (_to_camel (fst kv), snd kv))
    (filter (fun kv => kept (snd kv)) raw).
Proof.
  induction raw as [|[k0 v0] raw IH] using rev_ind; intros ND; [reflexivity|].
  unfold keys in ND. rewrite !map_app in ND. simpl in ND.
  apply NoDup_remove in ND. rewrite app_nil_r in ND. destruct ND as [ND Hfresh].
  rewrite camel_items_snoc, filter_app, map_app. simpl.
  rewrite <- (IH ND).
  destruct (kept v0); simpl; [|now rewrite app_nil_r].
  apply dict_set_fresh.
  destruct (dict_get (_to_camel k0) (camel_items raw)) as [w|] eqn:G; auto.
  destruct (camel_items_sound _ _ _ G) as (k1 & Hin1 & Hk & _).
  exfalso. apply Hfresh. rewrite Hk.
  apply in_map. change k1 with (fst (k1, w)). now apply in_map.
Qed.

(** X2: the body built for a request object is the list of its fields in
    declaration order, without those whose value is the empty string (or
    zero), each under its camel-case name. *)
Theorem serialize_keeps_field_order (obj : Request) :
  _serialize obj =
  map (fun kv => (_to_camel (fst kv), snd kv))
    (filter (fun kv => negb (eq_empty_str (snd kv)) && negb (eq_zero (snd kv)))
       (asdict obj)).
Proof.
  unfold _serialize. apply camel_items_ordered, asdict_wire_names_distinct.
Qed.

(** X3: whatever object is serialized, no value equal to the empty string or
    to zero gets into the body; as [False == 0] and [0.0 == 0] in Python, a
    field holding [False] or [0.0] is dropped as well. *)
Theorem serialized_values_are_not_defaults (raw : pydict) (key : string)
    (v : pyval) :
  dict_get key (camel_items raw) = Some v ->
  v <> VStr "" /\ v <> VInt 0 /\ v <> VBool false /\ v <> VFloat (Fin 0) /\
  exists k, In (k, v) raw /\ key = _to_camel k.
Proof.
  intros H. destruct (camel_items_sound _ _ _ H) as (k & Hin & Hk & Hkept).
  repeat split; try (intros ->; discriminate Hkept). eauto.
Qed.

Lemma serialized_values_are_not_defaults_witness :
  camel_items [("is_active", VBool false); ("score", VFloat (Fin 0));
               ("retries", VInt 0); ("note", VStr ""); ("name", VStr "x")] =
  [("name", VStr "x")] /\ VStr "x" <> VStr "".
Proof.
  split; [reflexivity|].
  apply (serialized_values_are_not_defaults
           [("is_active", VBool false); ("score", VFloat (Fin 0));
            ("retries", VInt 0); ("note", VStr ""); ("name", VStr "x")]
           "name" (VStr "x")).
  reflexivity.
Defined.

(** ** The remaining branches of the classification *)

(** Case analysis on the status tests of [handle_response], each settled by
    linear arithmetic from the hypotheses in scope. *)
Ltac status_tests resp :=
  repeat match goal with
    | |- context [Httpx.status_code resp =? ?n] =>
        first [ replace (Httpx.status_code resp =? n) with false
                  by (symmetry; apply Z.eqb_neq; lia)
              | replace (Httpx.status_code resp =? n) with true
                  by (symmetry; apply Z.eqb_eq; lia) ]
    | |- context [?n <=? Httpx.status_code resp] =>
        first [ replace (n <=? Httpx.status_code resp) with false
                  by (symmetry; apply Z.leb_gt; lia)
              | replace (n <=? Httpx.status_code resp) with true
                  by (symmetry; apply Z.leb_le; lia) ]
    end.

Lemma loop_below_400 self method url body attempt rest last_err st resp st1 :
  send_request self method url body st = (Ok resp, st1) ->
  Httpx.status_code resp < 400 ->
  request_loop self method url body (attempt :: rest) last_err st =
  match json resp with
  | Some v => (Ok (Returned v), st1)
  | None => (Raise ExJSONDecode, st1)
  end.
Proof.
  intros Hsend Hst. cbn [request_loop]. unfold bind at 1.
  rewrite (attempt_body_response _ _ _ _ _ _ _ _ _ Hsend).
  unfold handle_response. status_tests resp. cbn [orb].
  unfold resp_json, bind, ret, raise. now destruct (json resp).
Qed.

(** X4: any response with a status below 400 counts as success, 1xx and 3xx
    included: the loop stops at once and returns its decoded body; a body
    that does not decode -- an empty one, as of a 204, too -- makes the call
    raise the decoder's error. *)
Theorem below_400_is_success
    (self : IntelligentDataClient) (method url : string) (body : option pydict)
    (attempt : Z) (rest : list Z) (last_err : option exn)
    (st st1 : State) (resp : Response) :
  send_request self method url body st = (Ok resp, st1) ->
  Httpx.status_code resp < 400 ->
  request_loop self method url body (attempt :: rest) last_err st =
  match json resp with
  | Some v => (Ok (Returned v), st1)
  | None => (Raise ExJSONDecode, st1)
  end.
Proof.
  apply loop_below_400.
Qed.

Lemma below_400_is_success_witness :
  (exists st', _request api_key_client "POST" address_path None
                 (stub [Responds resp_204]) = (Raise ExJSONDecode, st')) /\
  (exists st', _request api_key_client "POST" address_path None
                 (stub [Responds (resp_list_body 302)]) =
               (Ok (VList [VInt 1]), st')).
Proof.
  split; eexists.
  - apply request_of_loop_raise.
    apply (below_400_is_success api_key_client "POST" _ None 0 [1; 2] None
             (stub [Responds resp_204]) _ resp_204); reflexivity.
  - apply request_of_loop_return.
    apply (below_400_is_success api_key_client "POST" _ None 0 [1; 2] None
             (stub [Responds (resp_list_body 302)]) _ (resp_list_body 302));
      reflexivity.
Defined.

Lemma loop_5xx_retry self method url body attempt rest last_err st resp st1 :
  send_request self method url body st = (Ok resp, st1) ->
  500 <= Httpx.status_code resp ->
  attempt < _MAX_RETRIES - 1 ->
  sleepable (inject_Z (2 ^ attempt)) = true ->
  request_loop self method url body (attempt :: rest) last_err st =
  request_loop self method url body rest
    (Some (ExApi (ApiError (Httpx.status_code resp) (VStr (text resp)) VNone)))
    (after_sleep (inject_Z (2 ^ attempt)) st1).
Proof.
  intros Hsend Hst Hlt Hs. cbn [request_loop]. unfold bind at 1.
  rewrite (attempt_body_response _ _ _ _ _ _ _ _ _ Hsend).
  unfold handle_response. status_tests resp.
  apply Z.ltb_lt in Hlt. rewrite Hlt. unfold bind, ret, of_Z.
  now rewrite (time_sleep_ok _ _ Hs).
Qed.

Lemma loop_5xx_final self method url body attempt rest last_err st resp st1 :
  send_request self method url body st = (Ok resp, st1) ->
  500 <= Httpx.status_code resp ->
  _MAX_RETRIES - 1 <= attempt ->
  request_loop self method url body (attempt :: rest) last_err st =
  (Raise (ExApi (ApiError (Httpx.status_code resp) (VStr (text resp)) VNone)),
   st1).
Proof.
  intros Hsend Hst Hge. cbn [request_loop]. unfold bind at 1.
  rewrite (attempt_body_response _ _ _ _ _ _ _ _ _ Hsend).
  unfold handle_response. status_tests resp.
  apply Z.ltb_ge in Hge. now rewrite Hge.
Qed.

(** X5: three responses with status 500 or more in a row: the call sleeps 1
    and 2 seconds between the attempts and then raises a plain [ApiError]
    with the status of the third response, its body text as message and an
    empty [raw]; no sleep follows the third. *)
Theorem server_errors_exhaust
    (self : IntelligentDataClient) (method path : string)
    (body : option pydict) (st st1 st2 st3 : State) (r1 r2 r3 : Response) :
  let send := send_request self method (_base_url self ++ path) body in
  send st = (Ok r1, st1) -> 500 <= Httpx.status_code r1 ->
  send (after_sleep 1 st1) = (Ok r2, st2) -> 500 <= Httpx.status_code r2 ->
  send (after_sleep 2 st2) = (Ok r3, st3) -> 500 <= Httpx.status_code r3 ->
  _request self method path body st =
    (Raise (ExApi (mkApiError ClsApiError (Httpx.status_code r3)
                     (VStr (text r3)) (VDict []) None)), st3) /\
  slept st3 = (slept st ++ [Fin 1; Fin 2])%list.
Proof.
  intros send H1 S1 H2 S2 H3 S3. split.
  - apply request_of_loop_raise. change (range _MAX_RETRIES) with [0; 1; 2].
    rewrite (loop_5xx_retry _ _ _ _ 0 [1; 2] None st r1 st1 H1 S1);
      [|reflexivity|reflexivity].
    change (inject_Z (2 ^ 0)) with 1%Q.
    rewrite (loop_5xx_retry _ _ _ _ 1 [2] _ _ r2 st2 H2 S2);
      [|reflexivity|reflexivity].
    change (inject_Z (2 ^ 1)) with 2%Q.
    rewrite (loop_5xx_final _ _ _ _ 2 [] _ _ r3 st3 H3 S3); [|discriminate].
    reflexivity.
  - rewrite (no_sleep_send_request _ _ _ _ _ _ _ H3). simpl.
    rewrite (no_sleep_send_request _ _ _ _ _ _ _ H2). simpl.
    rewrite (no_sleep_send_request _ _ _ _ _ _ _ H1).
    now rewrite <- app_assoc.
Qed.

Lemma server_errors_exhaust_witness :
  exists st',
    _request api_key_client "POST" address_path None
      (stub [Responds (resp_html 500); Responds (resp_html 502);
             Responds resp_503]) =
    (Raise (ExApi (mkApiError ClsApiError 503 (VStr "upstream down")
                     (VDict []) None)), st') /\
    slept st' = [Fin 1; Fin 2].
Proof.
  eexists.
  eapply (server_errors_exhaust api_key_client "POST" address_path None
            (stub [Responds (resp_html 500); Responds (resp_html 502);
                   Responds resp_503]) _ _ _ (resp_html 500) (resp_html 502)
            resp_503);
    first [reflexivity | (cbn; lia)].
Defined.

(** X6: a server error followed by a success is invisible apart from the
    delay: after a response with status 500 or more on the first attempt and
    a 2xx on the second, the call returns the second body, having slept one
    second. *)
Theorem server_error_then_success
    (self : IntelligentDataClient) (method path : string)
    (body : option pydict) (st st1 st2 : State) (r1 r2 : Response) (v : pyval) :
  let send := send_request self method (_base_url self ++ path) body in
  send st = (Ok r1, st1) -> 500 <= Httpx.status_code r1 ->
  send (after_sleep 1 st1) = (Ok r2, st2) ->
  200 <= Httpx.status_code r2 <= 299 -> json r2 = Some v ->
  _request self method path body st = (Ok v, st2) /\
  slept st2 = (slept st ++ [Fin 1])%list.
Proof.
  intros send H1 S1 H2 S2 Hj. split.
  - apply request_of_loop_return. change (range _MAX_RETRIES) with [0; 1; 2].
    rewrite (loop_5xx_retry _ _ _ _ 0 [1; 2] None st r1 st1 H1 S1);
      [|reflexivity|reflexivity].
    change (inject_Z (2 ^ 0)) with 1%Q.
    rewrite (loop_below_400 _ _ _ _ 1 [2] _ _ r2 st2 H2); [|lia].
    now rewrite Hj.
  - rewrite (no_sleep_send_request _ _ _ _ _ _ _ H2). simpl.
    now rewrite (no_sleep_send_request _ _ _ _ _ _ _ H1).
Qed.

Lemma server_error_then_success_witness :
  exists st',
    _request api_key_client "POST" address_path None
      (stub [Responds resp_503; Responds resp_200]) = (Ok (VDict []), st') /\
    slept st' = [Fin 1].
Proof.
  eexists.
  eapply (server_error_then_success api_key_client "POST" address_path None
            (stub [Responds resp_503; Responds resp_200]) _ _ resp_503 resp_200);
    first [reflexivity | (cbn; lia)].
Defined.

(** X7: a 4xx other than 401, 403 and 429 ends the call on the attempt that
    received it with a plain [ApiError] carrying the response's status, the
    ["message"] of the body (or "Request failed") and the body as [raw],
    when the body is empty or a JSON object. *)
Theorem client_error_not_retried
    (self : IntelligentDataClient) (method url : string) (body : option pydict)
    (attempt : Z) (rest : list Z) (last_err : option exn)
    (st st1 : State) (resp : Response) (d : pydict) :
  send_request self method url body st = (Ok resp, st1) ->
  400 <= Httpx.status_code resp < 500 ->
  Httpx.status_code resp <> 401 -> Httpx.status_code resp <> 403 ->
  Httpx.status_code resp <> 429 ->
  body_value resp (VDict []) = Some (VDict d) ->
  request_loop self method url body (attempt :: rest) last_err st =
    (Raise (ExApi (mkApiError ClsApiError (Httpx.status_code resp)
                     (dict_get_default "message" (VStr "Request failed") d)
                     (VDict d) None)), st1) /\
  slept st1 = slept st.
Proof.
  intros Hsend Hr H401 H403 H429 Hd. split.
  - apply loop_raise.
    rewrite (attempt_body_response _ _ _ _ _ _ _ _ _ Hsend).
    unfold handle_response. status_tests resp. cbn [orb].
    unfold body_value in Hd.
    unfold json_if_content, resp_json, py_get, bind, ret, raise.
    unfold ApiError, init_api_error.
    destruct (negb (content resp =? "")%string).
    + rewrite Hd. now rewrite py_or_dict.
    + injection Hd as <-. reflexivity.
  - exact (no_sleep_send_request _ _ _ _ _ _ _ Hsend).
Qed.

Lemma client_error_not_retried_witness :
  exists st',
    _request api_key_client "POST" address_path None
      (stub [Responds resp_404_empty; Responds resp_200]) =
    (Raise (ExApi (mkApiError ClsApiError 404 (VStr "Request failed")
                     (VDict []) None)), st') /\
    List.length (net st') = 1%nat.
Proof.
  pose (st := stub [Responds resp_404_empty; Responds resp_200]).
  pose (url := _base_url api_key_client ++ address_path).
  pose (st1 := snd (send_request api_key_client "POST" url None st)).
  assert (Hsend : send_request api_key_client "POST" url None st =
                  (Ok resp_404_empty, st1)) by reflexivity.
  destruct (client_error_not_retried api_key_client "POST" url None 0 [1; 2]
              None st st1 resp_404_empty [] Hsend) as (H & _);
    try (cbn; lia); try reflexivity.
  exists st1. split; [|reflexivity].
  apply request_of_loop_raise. exact H.
Defined.

(** X8: an error response (4xx other than 429) whose body is JSON but not an
    object -- a list, a string, a number -- makes the call fail with
    [AttributeError], raised by [data.get], instead of an [ApiError]. *)
Theorem non_object_error_body_raises_attribute_error
    (attempt : Z) (last_err : option exn) (resp : Response) (st : State)
    (v : pyval) :
  400 <= Httpx.status_code resp < 500 -> Httpx.status_code resp <> 429 ->
  content resp <> "" -> json resp = Some v -> is_dict v = false ->
  handle_response attempt last_err resp st = (Raise ExAttributeError, st).
Proof.
  intros Hr H429 Hc Hj Hv. apply String.eqb_neq in Hc.
  unfold handle_response. status_tests resp.
  destruct ((Httpx.status_code resp =? 401) || (Httpx.status_code resp =? 403));
    unfold json_if_content, resp_json, py_get, bind, ret, raise;
    rewrite Hc, Hj; cbn [negb]; destruct v; try discriminate Hv; reflexivity.
Qed.

Lemma non_object_error_body_raises_attribute_error_witness :
  handle_response 0 None (resp_list_body 422) (stub []) =
    (Raise ExAttributeError, stub []) /\
  exists st',
    _request api_key_client "POST" address_path None
      (stub [Responds (resp_list_body 401)]) = (Raise ExAttributeError, st').
Proof.
  split.
  - apply (non_object_error_body_raises_attribute_error 0 None
             (resp_list_body 422) (stub []) (VList [VInt 1]));
      first [reflexivity | discriminate | (cbn; lia)].
  - eexists. reflexivity.
Defined.

(** ** How much one call can do *)

Section Effort.

(** A counter that a token request raises by [c_tok] at most, a resource
    request by [c_api], a sleep by [c_slp], and that a cache update leaves
    alone. *)
Variables (f : State -> nat) (c_tok c_api c_slp : nat).

Hypothesis f_send :
  forall c, bounded f (if is_api_call c then c_api else c_tok) (http_send c).
Hypothesis f_sleep : forall d, bounded f c_slp (time_sleep d).
Hypothesis f_cache : forall tc, preserves f (set_cache tc).

Lemma bounded_ret {A} (a : A) : bounded f 0 (ret a).
Proof. intros st r st' H. inversion H; subst. lia. Qed.

Lemma bounded_raise {A} (e : exn) : bounded f 0 (@raise A e).
Proof. intros st r st' H. inversion H; subst. lia. Qed.

Lemma bounded_preserves {A} (m : M A) : preserves f m -> bounded f 0 m.
Proof. intros Hm st r st' H. rewrite (Hm _ _ _ H). lia. Qed.

Lemma bounded_weaken {A} (n n' : nat) (m : M A) :
  (n <= n')%nat -> bounded f n m -> bounded f n' m.
Proof. intros Hn Hm st r st' H. specialize (Hm _ _ _ H). lia. Qed.

Lemma bounded_bind {A B} (n1 n2 n : nat) (m : M A) (k : A -> M B) :
  (n1 + n2 <= n)%nat ->
  bounded f n1 m -> (forall a, bounded f n2 (k a)) -> bounded f n (bind m k).
Proof.
  intros Hn Hm Hk st r st' H. unfold bind in H.
  destruct (m st) as [[a|e] st0] eqn:E.
  - specialize (Hm _ _ _ E). specialize (Hk a _ _ _ H). lia.
  - inversion H; subst. specialize (Hm _ _ _ E). lia.
Qed.

(** A step that leaves the counter alone, then the rest. *)
Ltac quiet_step :=
  eapply (bounded_bind 0 _ _);
  [ apply Nat.le_refl
  | apply bounded_preserves; auto using @preserves_ret, @preserves_raise,
      @preserves_time_time, @preserves_get_cache,
      @preserves_raise_for_status, @preserves_resp_json,
      @preserves_py_getitem, @preserves_py_get, @preserves_float_plus
  | intros ? ].

Lemma bounded_get_token (tm : OAuth2TokenManager) :
  bounded f c_tok (get_token tm).
Proof.
  assert (Hrefresh : forall (resp : Response),
            bounded f 0
              (raise_for_status resp ;;;
               data <- resp_json resp ;;
               tok <- py_getitem data "access_token" ;;
               t' <- time_time ;;
               ttl <- py_get data "expires_in" (VInt 3600) ;;
               exp <- float_plus t' ttl ;;
               set_cache (mkTokenCache tok exp) ;;; ret tok)).
  { intros resp. do 6 quiet_step.
    eapply (bounded_bind 0 0 0); [lia | apply bounded_preserves, f_cache |].
    intros _. apply bounded_ret. }
  unfold get_token. quiet_step.
  eapply (bounded_bind 0 c_tok c_tok); [lia | | intros fresh].
  - destruct a as [tc|]; [|apply bounded_ret].
    quiet_step. apply bounded_ret.
  - assert (Hgo : bounded f c_tok
              (resp <- http_send (TokenPost (_token_url tm) (_client_id tm)
                                    (_client_secret tm)) ;;
               raise_for_status resp ;;;
               data <- resp_json resp ;;
               tok <- py_getitem data "access_token" ;;
               t' <- time_time ;;
               ttl <- py_get data "expires_in" (VInt 3600) ;;
               exp <- float_plus t' ttl ;;
               set_cache (mkTokenCache tok exp) ;;; ret tok)).
    { eapply (bounded_bind c_tok 0 c_tok); [lia | apply (f_send (TokenPost _ _ _)) |].
      exact Hrefresh. }
    destruct a as [tc|]; [destruct fresh|]; try exact Hgo.
    eapply bounded_weaken; [|apply bounded_ret]. lia.
Qed.

Lemma bounded_send_request self method url body :
  bounded f (c_tok + c_api) (send_request self method url body).
Proof.
  unfold send_request.
  eapply (bounded_bind c_tok c_api _); [lia | | intros h].
  - unfold _headers. destruct (str_truthy (_api_key self)).
    + eapply bounded_weaken; [|apply bounded_ret]. lia.
    + destruct (_oauth self) as [tm|].
      * eapply (bounded_bind c_tok 0 _); [lia | apply bounded_get_token |].
        intros tok. apply bounded_ret.
      * eapply bounded_weaken; [|apply bounded_ret]. lia.
  - apply (f_send (ApiCall method url body h)).
Qed.

Lemma bounded_json_if_content (resp : Response) (dflt : pyval) :
  bounded f 0 (json_if_content resp dflt).
Proof.
  unfold json_if_content. destruct (negb (content resp =? "")%string).
  - apply bounded_preserves, preserves_resp_json.
  - apply bounded_ret.
Qed.

Lemma bounded_handle_response attempt last_err resp :
  bounded f c_slp (handle_response attempt last_err resp).
Proof.
  assert (Hsleep : forall d (s : step),
            bounded f c_slp (time_sleep d ;;; ret s)).
  { intros d s. eapply (bounded_bind c_slp 0 _); [lia | apply f_sleep |].
    intros _. apply bounded_ret. }
  assert (Herr : forall (dflt : pyval) (k : pyval -> pyval -> exn),
            bounded f c_slp
              (data <- json_if_content resp (VDict []) ;;
               msg <- py_get data "message" dflt ;; @raise step (k msg data))).
  { intros dflt k.
    eapply (bounded_bind 0 0 _); [lia | apply bounded_json_if_content |].
    intros data. quiet_step. apply bounded_raise. }
  unfold handle_response.
  destruct (Httpx.status_code resp =? 429).
  { eapply (bounded_bind 0 c_slp _); [lia | |intros ra].
    - apply bounded_preserves. unfold read_retry_after.
      destruct (retry_after_value resp attempt);
        auto using @preserves_ret, @preserves_raise.
    - destruct (attempt <? _MAX_RETRIES - 1); [apply Hsleep|].
      eapply (bounded_bind 0 0 _); [lia | apply bounded_json_if_content |].
      intros raw. apply bounded_raise. }
  destruct (500 <=? Httpx.status_code resp).
  { destruct (attempt <? _MAX_RETRIES - 1); [apply Hsleep|].
    eapply bounded_weaken; [|apply bounded_raise]. lia. }
  destruct ((Httpx.status_code resp =? 401) || (Httpx.status_code resp =? 403)).
  { apply (Herr _ (fun msg data => ExApi (AuthenticationError msg data))). }
  destruct (400 <=? Httpx.status_code resp).
  { apply (Herr _ (fun msg data =>
                     ExApi (ApiError (Httpx.status_code resp) msg data))). }
  eapply bounded_weaken with (n := 0%nat); [lia|].
  quiet_step. apply bounded_ret.
Qed.

Lemma bounded_attempt_body self method url body attempt last_err :
  bounded f (c_tok + c_api + c_slp)
    (attempt_body self method url body attempt last_err).
Proof.
  unfold attempt_body.
  eapply (bounded_bind (c_tok + c_api) c_slp _); [lia | | intros [exc|resp]].
  - intros st r st' H. unfold try_transport in H.
    destruct (send_request self method url body st) as [[resp|e] st0] eqn:E.
    + inversion H; subst. exact (bounded_send_request _ _ _ _ _ _ _ E).
    + destruct (is_transport_error e); inversion H; subst;
        exact (bounded_send_request _ _ _ _ _ _ _ E).
  - eapply (bounded_bind c_slp 0 _); [lia | apply f_sleep |].
    intros _. apply bounded_ret.
  - apply bounded_handle_response.
Qed.

Lemma bounded_request_loop self method url body attempts :
  forall last_err,
    bounded f (List.length attempts * (c_tok + c_api + c_slp))
      (request_loop self method url body attempts last_err).
Proof.
  induction attempts as [|attempt rest IH]; intros last_err; cbn [request_loop].
  - apply bounded_ret.
  - eapply (bounded_bind (c_tok + c_api + c_slp) _ _);
      [| apply bounded_attempt_body | intros [le|v]].
    + cbn [List.length Nat.mul]. apply Nat.le_refl.
    + apply IH.
    + eapply bounded_weaken; [|apply bounded_ret]. lia.
Qed.

Lemma bounded_request self method path body :
  bounded f (3 * (c_tok + c_api + c_slp)) (_request self method path body).
Proof.
  unfold _request.
  eapply (bounded_bind _ 0 _);
    [| apply (bounded_request_loop self method _ body (range _MAX_RETRIES) None)
     | intros [v|[err|]] ];
    [ change (List.length (range _MAX_RETRIES)) with 3%nat; lia
    | apply bounded_ret | apply bounded_raise | apply bounded_raise ].
Qed.

End Effort.

Lemma counts_http_send (p : Call -> bool) (c : Call) :
  bounded (fun st => List.length (filter p (sent st)))
    (if p c then 1 else 0) (http_send c).
Proof.
  assert (H : forall l, List.length (filter p (l ++ [c])) =
                        (List.length (filter p l) + (if p c then 1 else 0))%nat).
  { intros l. rewrite filter_app, length_app. simpl. now destruct (p c). }
  intros st r st' E. unfold http_send, after_exchange in E.
  destruct (net st) as [|x rest].
  - inversion E; subst. cbn [sent]. rewrite H. lia.
  - destruct (outcome x); inversion E; subst; cbn [sent]; rewrite H; lia.
Qed.

Lemma sent_time_sleep (d : pyfloat) : preserves sent (time_sleep d).
Proof.
  intros st r st' H. unfold time_sleep in H.
  destruct d as [q| | |]; try now inversion H.
  destruct (Qltb PYTIME_MAX (Qabs q)); [now inversion H|].
  destruct (Qltb q 0); now inversion H.
Qed.

(** X9: one call of [_request] sends at most three resource requests and at
    most three token requests, and sleeps at most three times, whatever the
    transport answers. *)
Theorem request_effort_bounded
    (self : IntelligentDataClient) (method path : string)
    (body : option pydict) (st : State) :
  let st' := snd (_request self method path body st) in
  (api_calls st <= api_calls st' <= api_calls st + 3)%nat /\
  (token_posts st <= token_posts st' <= token_posts st + 3)%nat /\
  (sleeps st <= sleeps st' <= sleeps st + 3)%nat.
Proof.
  intros st'. subst st'.
  destruct (_request self method path body st) as [r st'] eqn:E. cbn [snd].
  assert (Hcache : forall (g : State -> nat),
            (forall st0 tc, g (mkState (now st0) (net st0) (sent st0)
                                 (slept st0) (Some tc)) = g st0) ->
            forall tc, preserves g (set_cache tc)).
  { intros g Hg tc s r0 s' H. inversion H; subst. apply Hg. }
  assert (Hsleep0 : forall (g : State -> nat),
            (forall s s', sent s' = sent s -> g s' = g s) ->
            forall d, bounded g 0 (time_sleep d)).
  { intros g Hg d. apply bounded_preserves. intros s r0 s' H.
    apply Hg. exact (sent_time_sleep d _ _ _ H). }
  split; [|split].
  - assert (B : bounded api_calls (3 * (0 + 1 + 0))
                  (_request self method path body)).
    { apply bounded_request.
      - intros c. unfold api_calls.
        pose proof (counts_http_send is_api_call c) as H.
        destruct (is_api_call c); exact H.
      - apply Hsleep0. intros s s' H. unfold api_calls. now rewrite H.
      - apply Hcache. reflexivity. }
    specialize (B _ _ _ E). simpl in B. exact B.
  - assert (B : bounded token_posts (3 * (1 + 0 + 0))
                  (_request self method path body)).
    { apply bounded_request.
      - intros c. unfold token_posts.
        pose proof (counts_http_send (fun c => negb (is_api_call c)) c) as H.
        cbn beta in H. destruct (is_api_call c); exact H.
      - apply Hsleep0. intros s s' H. unfold token_posts. now rewrite H.
      - apply Hcache. reflexivity. }
    specialize (B _ _ _ E). simpl in B. exact B.
  - assert (B : bounded sleeps (3 * (0 + 0 + 1))
                  (_request self method path body)).
    { apply bounded_request.
      - intros c. apply bounded_weaken with (n := 0%nat);
          [destruct (is_api_call c); lia|].
        apply bounded_preserves. intros s r0 s' H. unfold sleeps.
        now rewrite (slept_http_send c _ _ _ H).
      - intros d s r0 s' H. unfold sleeps, time_sleep in *.
        destruct d as [q| | |]; try (inversion H; subst; lia).
        destruct (Qltb PYTIME_MAX (Qabs q)); [inversion H; subst; lia|].
        destruct (Qltb q 0); inversion H; subst; [lia|].
        cbn [slept after_sleep]. rewrite length_app. simpl. lia.
      - apply Hcache. reflexivity. }
    specialize (B _ _ _ E). simpl in B. exact B.
Qed.

(** ** The errors a call can end with *)

Lemma init_api_error_raw (c : api_class) (s : Z) (m r : pyval)
    (ra : option pyfloat) :
  raw (init_api_error c s m r ra) <> VNone.
Proof.
  unfold init_api_error, py_or. cbn [raw].
  destruct (truthy r) eqn:T; [|discriminate].
  intros ->. discriminate T.
Qed.

Lemma foreign_classified (e : exn) : foreign e -> classified e.
Proof. intros H a ->. discriminate H. Qed.

Lemma handle_response_classified attempt last_err resp :
  raises_only classified (handle_response attempt last_err resp).
Proof.
  assert (W : forall A (m : M A), raises_only foreign m ->
                raises_only classified m).
  { intros A m. apply raises_only_weaken, foreign_classified. }
  unfold handle_response.
  destruct (Httpx.status_code resp =? 429) eqn:E429.
  { apply raises_only_bind; [apply W; auto with frame | intros ra].
    destruct (attempt <? _MAX_RETRIES - 1).
    - apply W. raise_steps.
    - apply raises_only_bind; [apply W; auto with frame | intros rw].
      apply raises_only_raise. intros a Ha. injection Ha as <-.
      split; [|apply init_api_error_raw].
      unfold well_classified. cbn. repeat split. discriminate. }
  destruct (500 <=? Httpx.status_code resp) eqn:E500.
  { assert (Hc : classified
                   (ExApi (ApiError (Httpx.status_code resp)
                             (VStr (text resp)) VNone))).
    { intros a Ha. injection Ha as <-.
      split; [|apply init_api_error_raw].
      unfold well_classified. cbn. apply Z.leb_le in E500. repeat split; lia. }
    destruct (attempt <? _MAX_RETRIES - 1).
    - apply W. raise_steps.
    - now apply raises_only_raise. }
  destruct ((Httpx.status_code resp =? 401) || (Httpx.status_code resp =? 403))
    eqn:Eauth.
  { apply raises_only_bind; [apply W; auto with frame | intros data].
    apply raises_only_bind; [apply W; auto with frame | intros msg].
    apply raises_only_raise. intros a Ha. injection Ha as <-.
    split; [|apply init_api_error_raw]. unfold well_classified. cbn. auto. }
  destruct (400 <=? Httpx.status_code resp) eqn:E400.
  { apply raises_only_bind; [apply W; auto with frame | intros data].
    apply raises_only_bind; [apply W; auto with frame | intros msg].
    apply raises_only_raise. intros a Ha. injection Ha as <-.
    split; [|apply init_api_error_raw]. unfold well_classified. cbn.
    apply Z.leb_le in E400. apply Z.eqb_neq in E429.
    apply orb_false_elim in Eauth. destruct Eauth as [E401 E403].
    apply Z.eqb_neq in E401, E403. repeat split; auto. }
  apply W. raise_steps.
Qed.

Lemma request_loop_classified self method url body attempts :
  forall last_err,
    raises_only classified
      (request_loop self method url body attempts last_err).
Proof.
  induction attempts as [|attempt rest IH]; intros last_err; cbn [request_loop].
  - intros st e st' H. inversion H.
  - apply raises_only_bind.
    + unfold attempt_body. apply raises_only_bind.
      * apply (raises_only_weaken foreign); [apply foreign_classified|].
        intros st e st' H. unfold try_transport in H.
        destruct (send_request self method url body st) as [[resp|e0] st0] eqn:E;
          [inversion H|].
        destruct (is_transport_error e0); inversion H; subst.
        exact (foreign_send_request _ _ _ _ _ _ _ E).
      * intros [exc|resp].
        -- apply (raises_only_weaken foreign); [apply foreign_classified|].
           raise_steps.
        -- apply handle_response_classified.
    + intros [le|v]; [apply IH | intros st e st' H; inversion H].
Qed.

(** X10: every [ApiError] that [_request] raises is consistent with its
    class: an [AuthenticationError] has status 401, a [RateLimitError] has
    status 429, the fixed message and a retry-after value, a plain [ApiError]
    has a status of 400 or more other than 401, 403 and 429; and [raw] is
    never [None]. *)
Theorem raised_api_errors_well_classified
    (self : IntelligentDataClient) (method path : string)
    (body : option pydict) (st st' : State) (a : api_error) :
  _request self method path body st = (Raise (ExApi a), st') ->
  well_classified a /\ raw a <> VNone.
Proof.
  intros H. unfold _request, bind in H.
  destruct (request_loop self method (_base_url self ++ path) body
              (range _MAX_RETRIES) None st) as [[[v|le]|e] st0] eqn:E.
  - inversion H.
  - destruct (request_loop_exhausted self method _ body [0; 1] 2 eq_refl
                None st le st0 E) as (e & -> & He).
    inversion H; subst. discriminate He.
  - inversion H; subst.
    exact (request_loop_classified _ _ _ _ _ _ _ _ _ E a eq_refl).
Qed.

Lemma raised_api_errors_well_classified_witness :
  well_classified (RateLimitError (Fin 7) VNone) /\
  well_classified (mkApiError ClsApiError 404 (VStr "Request failed")
                     (VDict []) None).
Proof.
  split.
  - pose (st := stub [Responds (resp_429 "1"); Responds resp_429_plain;
                      Responds (resp_429 "7")]).
    apply (raised_api_errors_well_classified api_key_client "POST" address_path
             None st (snd (_request api_key_client "POST" address_path None st))).
    reflexivity.
  - pose (st := stub [Responds resp_404_empty]).
    apply (raised_api_errors_well_classified api_key_client "POST" address_path
             None st (snd (_request api_key_client "POST" address_path None st))).
    reflexivity.
Defined.

(** ** A client with an API key *)

Section Unchanged.

(** An observation of the state that sleeping does not change. *)
Context {X : Type} (g : State -> X).
Hypothesis g_sleep : forall d, preserves g (time_sleep d).

Lemma preserves_json_if_content (resp : Response) (dflt : pyval) :
  preserves g (json_if_content resp dflt).
Proof.
  unfold json_if_content. destruct (negb (content resp =? "")%string);
    auto using @preserves_resp_json, @preserves_ret.
Qed.

Lemma preserves_handle_response attempt last_err resp :
  preserves g (handle_response attempt last_err resp).
Proof.
  assert (Hra : preserves g (read_retry_after resp attempt)).
  { unfold read_retry_after. destruct (retry_after_value resp attempt);
      auto using @preserves_ret, @preserves_raise. }
  unfold handle_response.
  repeat match goal with
    | |- preserves g (if ?c then _ else _) => destruct c
    | |- preserves g (bind _ _) => apply preserves_bind; [|intros ?]
    | |- preserves g (json_if_content _ _) => apply preserves_json_if_content
    | |- preserves g (time_sleep _) => apply g_sleep
    | |- preserves g (read_retry_after _ _) => exact Hra
    | |- _ => solve [auto using @preserves_ret, @preserves_raise,
                       @preserves_py_get, @preserves_resp_json]
    end.
Qed.

End Unchanged.

Lemma only_sends_bind {A B} (P : Call -> Prop) (m : M A) (k : A -> M B) :
  only_sends P m -> (forall a, only_sends P (k a)) -> only_sends P (bind m k).
Proof.
  intros Hm Hk st r st' H. unfold bind in H.
  destruct (m st) as [[a|e] st0] eqn:E.
  - destruct (Hm _ _ _ E) as (n1 & S1 & F1).
    destruct (Hk a _ _ _ H) as (n2 & S2 & F2).
    exists (n1 ++ n2)%list. split.
    + now rewrite S2, S1, app_assoc.
    + apply Forall_app. now split.
  - inversion H; subst. exact (Hm _ _ _ E).
Qed.

Lemma only_sends_quiet {A} (P : Call -> Prop) (m : M A) :
  preserves sent m -> only_sends P m.
Proof.
  intros Hm st r st' H. exists []. rewrite app_nil_r.
  split; [exact (Hm _ _ _ H) | constructor].
Qed.

Lemma only_sends_http_send (P : Call -> Prop) (c : Call) :
  P c -> only_sends P (http_send c).
Proof.
  intros Hc st r st' H. exists [c]. split; [|now repeat constructor].
  unfold http_send, after_exchange in H.
  destruct (net st) as [|x rest]; [now inversion H|].
  destruct (outcome x); now inversion H.
Qed.

Section ApiKey.

Variables (self : IntelligentDataClient) (key : string).
Hypothesis has_key : _api_key self = Some key.
Hypothesis key_not_empty : key <> "".

Lemma headers_with_key (st : State) : _headers self st = (Ok (XApiKey key), st).
Proof.
  unfold _headers, str_truthy. rewrite has_key.
  apply String.eqb_neq in key_not_empty. now rewrite key_not_empty.
Qed.

Variables (method url : string) (body : option pydict).

Let call : Call := ApiCall method url body (XApiKey key).

Lemma send_with_key (st : State) :
  send_request self method url body st = http_send call st.
Proof.
  unfold send_request, bind. now rewrite headers_with_key.
Qed.

Lemma keyed_attempt_only_sends attempt last_err :
  only_sends (eq call) (attempt_body self method url body attempt last_err).
Proof.
  unfold attempt_body. apply only_sends_bind.
  - intros st r st' H. unfold try_transport in H. rewrite send_with_key in H.
    destruct (http_send call st) as [[resp|e] st0] eqn:E.
    + inversion H; subst. exact (only_sends_http_send (eq call) call eq_refl _ _ _ E).
    + destruct (is_transport_error e); inversion H; subst;
        exact (only_sends_http_send (eq call) call eq_refl _ _ _ E).
  - intros [exc|resp]; apply only_sends_quiet.
    + apply preserves_bind; [apply sent_time_sleep | intros _; apply preserves_ret].
    + apply preserves_handle_response, sent_time_sleep.
Qed.

Lemma keyed_loop_only_sends attempts :
  forall last_err,
    only_sends (eq call) (request_loop self method url body attempts last_err).
Proof.
  induction attempts as [|attempt rest IH]; intros last_err; cbn [request_loop].
  - apply only_sends_quiet, preserves_ret.
  - apply only_sends_bind; [apply keyed_attempt_only_sends|].
    intros [le|v]; [apply IH | apply only_sends_quiet, preserves_ret].
Qed.

Lemma cache_time_sleep (d : pyfloat) : preserves cache (time_sleep d).
Proof.
  intros st r st' H. unfold time_sleep in H.
  destruct d as [q| | |]; try now inversion H.
  destruct (Qltb PYTIME_MAX (Qabs q)); [now inversion H|].
  destruct (Qltb q 0); now inversion H.
Qed.

Lemma keyed_loop_keeps_cache attempts :
  forall last_err,
    preserves cache (request_loop self method url body attempts last_err).
Proof.
  induction attempts as [|attempt rest IH]; intros last_err; cbn [request_loop].
  - apply preserves_ret.
  - apply preserves_bind.
    + unfold attempt_body. apply preserves_bind.
      * intros st r st' H. unfold try_transport in H. rewrite send_with_key in H.
        destruct (http_send call st) as [[resp|e] st0] eqn:E.
        -- inversion H; subst. exact (cache_http_send call _ _ _ E).
        -- destruct (is_transport_error e); inversion H; subst;
             exact (cache_http_send call _ _ _ E).
      * intros [exc|resp].
        -- apply preserves_bind; [apply cache_time_sleep | intros _; apply preserves_ret].
        -- apply preserves_handle_response, cache_time_sleep.
    + intros [le|v]; [apply IH | apply preserves_ret].
Qed.

End ApiKey.

(** X11: a client with a non-empty API key never contacts the token
    endpoint, even when OAuth2 credentials are configured too: every request
    of a call is the resource request with the [X-Api-Key] header, and the
    token cache stays as it was. *)
Theorem api_key_takes_precedence
    (self : IntelligentDataClient) (key method path : string)
    (body : option pydict) (st : State) :
  _api_key self = Some key -> key <> "" ->
  let st' := snd (_request self method path body st) in
  cache st' = cache st /\
  token_posts st' = token_posts st /\
  exists new,
    sent st' = (sent st ++ new)%list /\
    Forall (eq (ApiCall method (_base_url self ++ path) body (XApiKey key))) new.
Proof.
  intros Hkey Hne st'. subst st'. unfold _request, bind.
  pose proof (keyed_loop_only_sends self key Hkey Hne method
                (_base_url self ++ path) body (range _MAX_RETRIES) None st)
    as Hs.
  pose proof (keyed_loop_keeps_cache self key Hkey Hne method
                (_base_url self ++ path) body (range _MAX_RETRIES) None st)
    as Hc.
  destruct (request_loop self method (_base_url self ++ path) body
              (range _MAX_RETRIES) None st) as [r st0].
  specialize (Hs r st0 eq_refl). specialize (Hc r st0 eq_refl).
  destruct Hs as (new & Hsent & Hall).
  assert (Hgoal : cache st0 = cache st /\ token_posts st0 = token_posts st /\
            exists new,
              sent st0 = (sent st ++ new)%list /\
              Forall (eq (ApiCall method (_base_url self ++ path) body
                            (XApiKey key))) new).
  { split; [exact Hc|]. split; [|eauto].
    unfold token_posts. rewrite Hsent, filter_app, length_app.
    replace (filter (fun c => negb (is_api_call c)) new) with (@nil Call);
      [simpl; lia|].
    clear -Hall. induction Hall as [|c l Hc _ IH]; [reflexivity|].
    subst c. simpl. exact IH. }
  destruct r as [[v|[err|]]|e]; exact Hgoal.
Qed.

Lemma api_key_takes_precedence_witness :
  _oauth keyed_oauth_client <> None /\
  let st' := snd (_request keyed_oauth_client "POST" address_path None
                    (stub [Responds resp_503; Responds resp_200])) in
  cache st' = None /\ token_posts st' = 0%nat.
Proof.
  split; [discriminate|].
  destruct (api_key_takes_precedence keyed_oauth_client "svm-test-key" "POST"
              address_path None (stub [Responds resp_503; Responds resp_200])
              eq_refl) as (Hc & Ht & _); [discriminate|].
  split; [exact Hc | exact Ht].
Defined.

(** ** The token manager: refresh *)

Section Refresh.

Variable tm : OAuth2TokenManager.

Variables (st : State) (x : Exchange) (rest : list Exchange) (resp : Response).

Hypothesis stale : token_is_fresh st = false.
Hypothesis next : net st = x :: rest.
Hypothesis answers : outcome x = Responds resp.
Hypothesis success : is_success resp = true.

(** Up to the decoded body every successful exchange goes the same way. *)
Lemma refresh_after_response :
  get_token tm st =
  (data <- resp_json resp ;;
   tok <- py_getitem data "access_token" ;;
   t' <- time_time ;;
   ttl <- py_get data "expires_in" (VInt 3600) ;;
   exp <- float_plus t' ttl ;;
   set_cache (mkTokenCache tok exp) ;;; ret tok)
    (after_exchange (token_post tm) x rest st).
Proof.
  rewrite (get_token_stale tm st stale). unfold get_token_tail.
  unfold bind at 1, http_send. rewrite next, answers.
  unfold bind at 1, raise_for_status. now rewrite success.
Qed.




(** X14: a 2xx answer that is not the expected object makes [get_token]
    raise the error of the failing expression, each time with the cache as
    it was: [JSONDecodeError] for a body that does not decode, [TypeError]
    for a body that is not an object, [KeyError] for a missing
    ["access_token"], [TypeError] for an ["expires_in"] that is a string. *)
Theorem malformed_token_response :
  let st' := after_exchange (token_post tm) x rest st in
  cache st' = cache st /\
  (json resp = None -> get_token tm st = (Raise ExJSONDecode, st')) /\
  (forall v, json resp = Some v -> is_dict v = false ->
     get_token tm st = (Raise ExTypeError, st')) /\
  (forall d, json resp = Some (VDict d) -> dict_get "access_token" d = None ->
     get_token tm st = (Raise (ExKeyError "access_token"), st')) /\
  (forall d tok s, json resp = Some (VDict d) ->
     dict_get "access_token" d = Some tok ->
     dict_get "expires_in" d = Some (VStr s) ->
     get_token tm st = (Raise ExTypeError, st')).
Proof.
  intros st'. split; [reflexivity|].
  rewrite refresh_after_response.
  unfold resp_json, py_getitem, py_get, time_time, float_plus, set_cache,
    bind, ret, raise.
  split; [|split; [|split]].
  - now intros ->.
  - intros v -> Hv. destruct v; try discriminate Hv; reflexivity.
  - intros d -> Hd. now rewrite Hd.
  - intros d tok s -> Htok Hexp. rewrite Htok.
    unfold dict_get_default. now rewrite Hexp.
Qed.

End Refresh.

Lemma fails_keep_bind {X A B} (g : State -> X) (m : M A) (k : A -> M B) :
  preserves g m -> (forall a, fails_keep g (k a)) -> fails_keep g (bind m k).
Proof.
  intros Hm Hk st e st' H. unfold bind in H.
  destruct (m st) as [[a|e0] st0] eqn:E.
  - rewrite (Hk a _ _ _ H). exact (Hm _ _ _ E).
  - inversion H; subst. exact (Hm _ _ _ E).
Qed.

(** X15: [get_token] replaces the cache only when it succeeds: whenever it
    raises -- transport failure, rejected credentials, malformed answer --
    the cache entry is the one it found. *)
Theorem failed_refresh_keeps_cache
    (tm : OAuth2TokenManager) (st st' : State) (e : exn) :
  get_token tm st = (Raise e, st') -> cache st' = cache st.
Proof.
  assert (Htail : fails_keep cache (get_token_tail tm)).
  { unfold get_token_tail.
    apply fails_keep_bind; [apply cache_http_send | intros resp].
    apply fails_keep_bind; [apply preserves_raise_for_status | intros _].
    apply fails_keep_bind; [apply preserves_resp_json | intros data].
    apply fails_keep_bind; [apply preserves_py_getitem | intros tok].
    apply fails_keep_bind; [apply preserves_time_time | intros t'].
    apply fails_keep_bind; [apply preserves_py_get | intros ttl].
    apply fails_keep_bind; [apply preserves_float_plus | intros exp].
    intros s e0 s' H. inversion H. }
  intros H. destruct (token_is_fresh st) eqn:F.
  - unfold token_is_fresh in F. destruct (cache st) as [tc|] eqn:C;
      [|discriminate].
    rewrite (get_token_fresh tm st tc C) in H; [inversion H|].
    unfold token_is_fresh. now rewrite C.
  - rewrite (get_token_stale tm st F) in H. exact (Htail _ _ _ H).
Qed.



Lemma malformed_token_response_witness :
  let d := [("token", VStr "new-token")] in
  let x := mkExchange 0 (Responds (token_response d)) in
  exists st',
    get_token token_manager (mkState 1000 [x] [] [] None) =
      (Raise (ExKeyError "access_token"), st') /\ cache st' = None.
Proof.
  intros d x.
  destruct (malformed_token_response token_manager
              (mkState 1000 [x] [] [] None) x [] (token_response d)
              eq_refl eq_refl eq_refl eq_refl)
    as (Hc & _ & _ & Hkey & _).
  eexists. split; [apply (Hkey d); reflexivity | exact Hc].
Defined.

Lemma failed_refresh_keeps_cache_witness :
  let st := mkState 1000 [mkExchange 0 (Responds resp_503)] [] []
              (Some (mkTokenCache (VStr "old-token") (Fin 1010))) in
  exists e st',
    get_token token_manager st = (Raise e, st') /\
    cache st' = Some (mkTokenCache (VStr "old-token") (Fin 1010)).
Proof.
  intros st.
  exists (ExHTTPStatus 503), (snd (get_token token_manager st)).
  assert (H : get_token token_manager st =
              (Raise (ExHTTPStatus 503), snd (get_token token_manager st)))
    by reflexivity.
  split; [exact H|].
  exact (failed_refresh_keeps_cache token_manager st _ _ H).
Defined.

(** X16: with OAuth2 credentials and no API key, a transport failure of the
    token request is handled like one of the resource request: the attempt
    is given up without a resource request, the loop sleeps [2 ** attempt]
    and goes on with the failure pending. *)
Theorem token_transport_failure_is_retried
    (self : IntelligentDataClient) (tm : OAuth2TokenManager)
    (method url : string) (body : option pydict)
    (attempt : Z) (rest' : list Z) (last_err : option exn)
    (st : State) (x : Exchange) (rest : list Exchange) (what : string) :
  str_truthy (_api_key self) = false -> _oauth self = Some tm ->
  token_is_fresh st = false ->
  net st = x :: rest -> outcome x = TransportFails what ->
  sleepable (inject_Z (2 ^ attempt)) = true ->
  request_loop self method url body (attempt :: rest') last_err st =
  request_loop self method url body rest' (Some (ExTransport what))
    (after_sleep (inject_Z (2 ^ attempt))
       (after_exchange (token_post tm) x rest st)).
Proof.
  intros Hkey Hoauth Hstale Hnet Hout Hs.
  apply loop_transport; [| reflexivity | exact Hs].
  unfold send_request, _headers. rewrite Hkey, Hoauth.
  unfold bind. rewrite (get_token_stale tm st Hstale).
  unfold get_token_tail, bind, http_send. now rewrite Hnet, Hout.
Qed.

Lemma token_transport_failure_is_retried_witness :
  exists st',
    _request oauth_client "POST" address_path None
      (stub [TransportFails "ConnectError"; Responds (token_response
               [("access_token", VStr "t")]); Responds resp_200]) =
    (Ok (VDict []), st') /\
    slept st' = [Fin 1] /\ token_posts st' = 2%nat /\ api_calls st' = 1%nat.
Proof.
  eexists. split; [|repeat split].
  - apply request_of_loop_return. change (range _MAX_RETRIES) with [0; 1; 2].
    rewrite (token_transport_failure_is_retried oauth_client token_manager
               "POST" _ None 0 [1; 2] None _
               (mkExchange 0 (TransportFails "ConnectError"))
               [mkExchange 0 (Responds (token_response
                                          [("access_token", VStr "t")]));
                mkExchange 0 (Responds resp_200)] "ConnectError");
      reflexivity.
  - reflexivity.
  - reflexivity.
  - reflexivity.
Defined.

(** ** The public methods *)

Lemma py_get_dict (d : pydict) (k : string) (dflt : pyval) (st : State) :
  py_get (VDict d) k dflt st = (Ok (dict_get_default k dflt d), st).
Proof. reflexivity. Qed.

Lemma py_get_other (v : pyval) (k : string) (dflt : pyval) (st : State) :
  is_dict v = false -> py_get v k dflt st = (Raise ExAttributeError, st).
Proof. destruct v; intros H; try discriminate H; reflexivity. Qed.

(** Runs a public method once the outcome of its [_request] is known. *)
Ltac run_method H :=
  unfold validate_address, validate_tax_id, validate_bank_account,
    lookup_business, check_sanctions, check_directors;
  unfold bind at 1; rewrite H;
  unfold bind, ret; rewrite ?py_get_dict; try reflexivity.

(** X17: each of the six public methods posts the serialized request to its
    own path and, when the call returns a JSON object, builds the response
    from it: every typed field is the value under its camel-case key, or the
    field's default when the key is missing, and [raw] is the whole
    object. *)
Theorem public_methods_map_the_body
    (self : IntelligentDataClient) (st st' : State) (d : pydict) :
  let get k dflt := dict_get_default k dflt d in
  (forall req,
     _request self "POST" "/api/validate/address"
       (Some (_serialize (ReqAddress req))) st = (Ok (VDict d), st') ->
     validate_address self req st =
     (Ok (mkAddressResponse (get "isValid" (VBool false))
            (get "confidenceScore" (VFloat (Fin 0)))
            (get "standardizedAddress" (VDict [])) (VDict d)), st')) /\
  (forall req,
     _request self "POST" "/api/validate/taxid"
       (Some (_serialize (ReqTaxId req))) st = (Ok (VDict d), st') ->
     validate_tax_id self req st =
     (Ok (mkTaxIdResponse (get "isValid" (VBool false))
            (get "taxIdType" (VStr "")) (get "country" (VStr ""))
            (get "registeredName" (VStr "")) (VDict d)), st')) /\
  (forall req,
     _request self "POST" "/api/validate/bank"
       (Some (_serialize (ReqBankAccount req))) st = (Ok (VDict d), st') ->
     validate_bank_account self req st =
     (Ok (mkBankAccountResponse (get "isValid" (VBool false))
            (get "bankName" (VStr "")) (get "accountType" (VStr ""))
            (VDict d)), st')) /\
  (forall req,
     _request self "POST" "/api/enrich/business"
       (Some (_serialize (ReqBusinessLookup req))) st = (Ok (VDict d), st') ->
     lookup_business self req st =
     (Ok (mkBusinessLookupResponse (get "found" (VBool false))
            (get "companyName" (VStr "")) (get "registrationNumber" (VStr ""))
            (get "status" (VStr "")) (get "address" (VDict [])) (VDict d)),
      st')) /\
  (forall req,
     _request self "POST" "/api/risk/sanctions"
       (Some (_serialize (ReqSanctions req))) st = (Ok (VDict d), st') ->
     check_sanctions self req st =
     (Ok (mkSanctionsResponse (get "hasMatches" (VBool false))
            (get "matches" (VList [])) (get "screenedLists" (VList []))
            (VDict d)), st')) /\
  (forall req,
     _request self "POST" "/api/risk/directors"
       (Some (_serialize (ReqDirectors req))) st = (Ok (VDict d), st') ->
     check_directors self req st =
     (Ok (mkDirectorsResponse (get "hasDisqualified" (VBool false))
            (get "directors" (VList [])) (VDict d)), st')).
Proof.
  intros get. repeat split; intros req H; run_method H.
Qed.

Lemma public_methods_map_the_body_witness :
  exists st',
    validate_address api_key_client main_street
      (stub [Responds (mkResponse 200 [] "{}" "{}" (Some (VDict address_body)))]) =
    (Ok (mkAddressResponse (VBool true) (VFloat (Fin (9 # 10))) (VDict [])
           (VDict address_body)), st') /\
    sent st' =
      [ApiCall "POST" "https://api.smartvmapi.com/api/validate/address"
         (Some [("addressLine1", VStr "123 Main St"); ("city", VStr "New York");
                ("country", VStr "US")])
         (XApiKey "svm-test-key")].
Proof.
  pose (st := stub [Responds (mkResponse 200 [] "{}" "{}"
                                (Some (VDict address_body)))]).
  pose (st' := snd (_request api_key_client "POST" "/api/validate/address"
                      (Some (_serialize (ReqAddress main_street))) st)).
  destruct (public_methods_map_the_body api_key_client st st' address_body)
    as (Haddr & _).
  exists st'. split; [|reflexivity].
  exact (Haddr main_street eq_refl).
Defined.

(** X18: the public methods add no error handling of their own: an
    exception of the call leaves them unchanged, and a successful call whose
    body is JSON but not an object -- a list, a string, [null] -- makes them
    raise [AttributeError]. *)
Theorem public_methods_pass_errors_on
    (self : IntelligentDataClient) (st st' : State) :
  (forall req e,
     _request self "POST" "/api/validate/address"
       (Some (_serialize (ReqAddress req))) st = (Raise e, st') ->
     validate_address self req st = (Raise e, st')) /\
  (forall req e,
     _request self "POST" "/api/validate/taxid"
       (Some (_serialize (ReqTaxId req))) st = (Raise e, st') ->
     validate_tax_id self req st = (Raise e, st')) /\
  (forall req e,
     _request self "POST" "/api/validate/bank"
       (Some (_serialize (ReqBankAccount req))) st = (Raise e, st') ->
     validate_bank_account self req st = (Raise e, st')) /\
  (forall req e,
     _request self "POST" "/api/enrich/business"
       (Some (_serialize (ReqBusinessLookup req))) st = (Raise e, st') ->
     lookup_business self req st = (Raise e, st')) /\
  (forall req e,
     _request self "POST" "/api/risk/sanctions"
       (Some (_serialize (ReqSanctions req))) st = (Raise e, st') ->
     check_sanctions self req st = (Raise e, st')) /\
  (forall req e,
     _request self "POST" "/api/risk/directors"
       (Some (_serialize (ReqDirectors req))) st = (Raise e, st') ->
     check_directors self req st = (Raise e, st')) /\
  (forall req v, is_dict v = false ->
     (_request self "POST" "/api/validate/address"
        (Some (_serialize (ReqAddress req))) st = (Ok v, st') ->
      validate_address self req st = (Raise ExAttributeError, st'))) /\
  (forall req v, is_dict v = false ->
     (_request self "POST" "/api/risk/sanctions"
        (Some (_serialize (ReqSanctions req))) st = (Ok v, st') ->
      check_sanctions self req st = (Raise ExAttributeError, st'))).
Proof.
  repeat split; try (intros req e H; run_method H);
    intros req v Hv H; run_method H; now rewrite (py_get_other v _ _ _ Hv).
Qed.

Lemma public_methods_pass_errors_on_witness :
  (exists st', validate_address api_key_client main_street
                 (stub [Responds resp_404_empty]) =
               (Raise (ExApi (mkApiError ClsApiError 404 (VStr "Request failed")
                                (VDict []) None)), st')) /\
  (exists st', validate_address api_key_client main_street
                 (stub [Responds (resp_list_body 200)]) =
               (Raise ExAttributeError, st')).
Proof.
  split.
  - pose (st := stub [Responds resp_404_empty]).
    pose (st' := snd (validate_address api_key_client main_street st)).
    destruct (public_methods_pass_errors_on api_key_client st st') as (H & _).
    exists st'. exact (H main_street _ eq_refl).
  - pose (st := stub [Responds (resp_list_body 200)]).
    pose (st' := snd (validate_address api_key_client main_street st)).
    destruct (public_methods_pass_errors_on api_key_client st st')
      as (_ & _ & _ & _ & _ & _ & H & _).
    exists st'. exact (H main_street (VList [VInt 1]) eq_refl eq_refl).
Defined.

(** ** Construction of the client *)

Lemma list_ascii_of_string_app (a b : string) :
  list_ascii_of_string (a ++ b) =
  (list_ascii_of_string a ++ list_ascii_of_string b)%list.
Proof. induction a as [|c a IH]; simpl; congruence. Qed.

Lemma rstrip_slash_trailing (s : string) :
  rstrip_slash (s ++ "/") = rstrip_slash s.
Proof.
  unfold rstrip_slash. rewrite list_ascii_of_string_app. simpl.
  rewrite rev_unit. reflexivity.
Qed.

Lemma rstrip_slash_clean (s : string) :
  ends_with_slash (rstrip_slash s) = false.
Proof.
  unfold ends_with_slash, rstrip_slash.
  rewrite list_ascii_of_string_of_list_ascii, rev_involutive.
  induction (rev (list_ascii_of_string s)) as [|c l IH]; [reflexivity|].
  destruct (Ascii.eqb c "/") eqn:E; [exact IH | exact E].
Qed.

(** X19: the client is built the same with or without a trailing slash on
    the base URL, and the base it keeps never ends in a slash; the token
    manager exists exactly when client id and client secret are both given
    and non-empty. *)
Theorem client_construction
    (api_key client_id client_secret token_url : option string)
    (base_url : string) :
  new_client api_key client_id client_secret token_url (base_url ++ "/") =
    new_client api_key client_id client_secret token_url base_url /\
  ends_with_slash
    (_base_url (new_client api_key client_id client_secret token_url base_url))
    = false /\
  (_oauth (new_client api_key client_id client_secret token_url base_url)
     <> None <->
   str_truthy client_id = true /\ str_truthy client_secret = true).
Proof.
  split; [|split].
  - unfold new_client. now rewrite rstrip_slash_trailing.
  - apply rstrip_slash_clean.
  - unfold new_client. cbn [_oauth].
    destruct client_id as [cid|], client_secret as [sec|]; simpl;
      try (split; [congruence | intros [? ?]; discriminate]).
    destruct (negb (cid =? "")%string), (negb (sec =? "")%string); simpl;
      split; try congruence; try (intros [? ?]; discriminate); auto.
Qed.

(** ** A negative [Retry-After] *)


